(** * Schema generation for Materialize sinks: a shallow embedding

    This development embeds [tools/generate_schemas.py] and proves the
    properties its design document states about it.

    Modelling conventions.
    - A Python [str] is a [string]; a character is read as the code point
      of the same number, so the model covers the code points below 256.
    - A Python [dict] is an association list in insertion order with
      unique keys ([Dict]); [None] is [None] of an [option].
    - Logging, the catalog connection, standard output and the file system
      are threaded through a state-and-exception monad [M] over [World]. *)

From Stdlib Require Import String Ascii List ZArith Lia Bool Arith.
From Stdlib Require Import DecimalString Sorted.
Import ListNotations.
Local Open Scope list_scope.
Local Open Scope string_scope.

(** ** Python string primitives *)

Module PyStr.

Definition code (a : ascii) : nat := nat_of_ascii a.

(** [str.isspace] on one character, restricted to code points below 256:
    TAB..CR, FS..US, SPACE, NEL and NBSP. *)
Definition isspace (a : ascii) : bool :=
  let n := code a in
  (((9 <=? n) && (n <=? 13)) || ((28 <=? n) && (n <=? 32))
   || (n =? 133) || (n =? 160))%nat.

(** [str.lower] on one character: A..Z and the Latin-1 capitals
    (U+00C0..U+00DE except the multiplication sign) move up by 32. *)
Definition lower_char (a : ascii) : ascii :=
  let n := code a in
  if (((65 <=? n) && (n <=? 90))
      || ((192 <=? n) && (n <=? 222) && negb (n =? 215)))%nat
  then ascii_of_nat (n + 32) else a.

Fixpoint lower (s : string) : string :=
  match s with
  | EmptyString => EmptyString
  | String a s' => String (lower_char a) (lower s')
  end.

Fixpoint lstrip (s : string) : string :=
  match s with
  | EmptyString => EmptyString
  | String a s' => if isspace a then lstrip s' else s
  end.

Fixpoint rstrip (s : string) : string :=
  match s with
  | EmptyString => EmptyString
  | String a s' =>
      match rstrip s' with
      | EmptyString => if isspace a then EmptyString else String a EmptyString
      | r => String a r
      end
  end.

Definition strip (s : string) : string := rstrip (lstrip s).

Fixpoint startswith (s p : string) : bool :=
  match p, s with
  | EmptyString, _ => true
  | String b p', String a s' => Ascii.eqb a b && startswith s' p'
  | String _ _, EmptyString => false
  end.

Fixpoint drop (n : nat) (s : string) : string :=
  match n, s with
  | O, _ => s
  | S n', String _ s' => drop n' s'
  | S _, EmptyString => EmptyString
  end.

Definition endswith (s p : string) : bool :=
  (String.length p <=? String.length s)%nat
  && String.eqb (drop (String.length s - String.length p) s) p.

(** [sub in s] *)
Fixpoint contains (sub s : string) : bool :=
  startswith s sub
  || match s with
     | EmptyString => false
     | String _ s' => contains sub s'
     end.

(** [s.replace(old, new)] for a non-empty [old]: occurrences are found
    left to right and do not overlap.  [skip] counts the characters of a
    replaced occurrence that are still to be passed over. *)
Fixpoint replace_from (old new : string) (skip : nat) (s : string) : string :=
  match s with
  | EmptyString => EmptyString
  | String a s' =>
      match skip with
      | S k => replace_from old new k s'
      | O =>
          if startswith s old
          then new ++ replace_from old new (String.length old - 1) s'
          else String a (replace_from old new 0 s')
      end
  end.

(** With an empty [old] Python puts [new] before every character and at
    the end. *)
Fixpoint intersperse (new s : string) : string :=
  match s with
  | EmptyString => new
  | String a s' => new ++ String a (intersperse new s')
  end.

Definition replace (s old new : string) : string :=
  match old with
  | EmptyString => intersperse new s
  | _ => replace_from old new 0 s
  end.

(** ['sep'.join(parts)] *)
Fixpoint join (sep : string) (parts : list string) : string :=
  match parts with
  | [] => EmptyString
  | [p] => p
  | p :: rest => p ++ sep ++ join sep rest
  end.

(** [str(n)] for an integer *)
Definition of_Z (z : Z) : string := NilZero.string_of_int (Z.to_int z).
Definition of_nat (n : nat) : string := of_Z (Z.of_nat n).

(** Truth value of a string: empty is false. *)
Definition truthy (s : string) : bool :=
  match s with EmptyString => false | _ => true end.

End PyStr.

(** ** Python dictionaries with string keys *)

Module Dict.

Definition t (V : Type) : Type := list (string * V).

Fixpoint get {V} (d : t V) (k : string) : option V :=
  match d with
  | [] => None
  | (k', v) :: d' => if String.eqb k' k then Some v else get d' k
  end.

(** [k in d] *)
Definition mem {V} (d : t V) (k : string) : bool :=
  match get d k with Some _ => true | None => false end.

(** [d[k] = v]: an existing key keeps its place, a new one goes last. *)
Fixpoint set {V} (d : t V) (k : string) (v : V) : t V :=
  match d with
  | [] => [(k, v)]
  | (k', v') :: d' =>
      if String.eqb k' k then (k', v) :: d' else (k', v') :: set d' k v
  end.

(** [d.update(e)] *)
Definition update {V} (d e : t V) : t V :=
  fold_left (fun acc kv => set acc (fst kv) (snd kv)) e d.

Definition keys {V} (d : t V) : list string := map fst d.

End Dict.

(** ** JSON values and [json.dumps] *)

Module Json.

(** The Python values the program serialises: [None], [bool], [int],
    [str], [list] and [dict] with string keys. *)
#[warnings="-register-all"]
Inductive json : Type :=
| JNull
| JBool (b : bool)
| JInt (z : Z)
| JStr (s : string)
| JList (l : list json)
| JDict (d : list (string * json)).

Definition nl : string := String (ascii_of_nat 10) EmptyString.

Definition hex_digit (n : nat) : ascii :=
  if (n <? 10)%nat then ascii_of_nat (48 + n) else ascii_of_nat (87 + n).

(** [ensure_ascii] escaping of one character: the short escapes of
    [ESCAPE_DCT], the character itself between SPACE and TILDE, and
    [\u00xx] with lower-case digits otherwise. *)
Definition escape_char (a : ascii) : string :=
  let n := PyStr.code a in
  if (n =? 34)%nat then "\" ++ String a EmptyString
  else if (n =? 92)%nat then "\\"
  else if (n =? 8)%nat then "\b"
  else if (n =? 12)%nat then "\f"
  else if (n =? 10)%nat then "\n"
  else if (n =? 13)%nat then "\r"
  else if (n =? 9)%nat then "\t"
  else if ((32 <=? n) && (n <=? 126))%nat then String a EmptyString
  else "\u00" ++ String (hex_digit (n / 16))
                   (String (hex_digit (n mod 16)) EmptyString).

Fixpoint escape (s : string) : string :=
  match s with
  | EmptyString => EmptyString
  | String a s' => escape_char a ++ escape s'
  end.

Definition quote : string := String (ascii_of_nat 34) EmptyString.

Definition encode_str (s : string) : string := quote ++ escape s ++ quote.

Definition encode_bool (b : bool) : string := if b then "true" else "false".

(** [json.dumps(v, separators=(',', ': '))] *)
Fixpoint dumps_compact (v : json) : string :=
  match v with
  | JNull => "null"
  | JBool b => encode_bool b
  | JInt z => PyStr.of_Z z
  | JStr s => encode_str s
  | JList [] => "[]"
  | JList l => "[" ++ PyStr.join "," (map dumps_compact l) ++ "]"
  | JDict [] => "{}"
  | JDict d =>
      "{" ++ PyStr.join ","
               (map (fun '(k, x) => encode_str k ++ ": " ++ dumps_compact x) d)
          ++ "}"
  end.

Fixpoint spaces (n : nat) : string :=
  match n with
  | O => EmptyString
  | S n' => String " "%char (spaces n')
  end.

Definition newline_indent (level : nat) : string := nl ++ spaces (2 * level).

(** [json.dumps(v, indent=2)] at nesting depth [level] *)
Fixpoint dumps_indent (level : nat) (v : json) : string :=
  match v with
  | JNull => "null"
  | JBool b => encode_bool b
  | JInt z => PyStr.of_Z z
  | JStr s => encode_str s
  | JList [] => "[]"
  | JList l =>
      "[" ++ newline_indent (S level)
          ++ PyStr.join ("," ++ newline_indent (S level))
               (map (dumps_indent (S level)) l)
          ++ newline_indent level ++ "]"
  | JDict [] => "{}"
  | JDict d =>
      "{" ++ newline_indent (S level)
          ++ PyStr.join ("," ++ newline_indent (S level))
               (map (fun '(k, x) =>
                       encode_str k ++ ": " ++ dumps_indent (S level) x) d)
          ++ newline_indent level ++ "}"
  end.

End Json.
Import Json.

(** ** The world the program acts on, and its monad *)

Inductive Level : Type := INFO | WARNING | ERROR.

Record LogRecord : Type := mkLog { level : Level; message : string }.

(** Exceptions the modelled code can raise; the payload is [str(e)]. *)
Inductive exn : Type :=
| OperationalError (msg : string)
| AttributeError (msg : string)
| OSError (msg : string)
| DatabaseError (msg : string).

Definition exn_str (e : exn) : string :=
  match e with
  | OperationalError m | AttributeError m | OSError m | DatabaseError m => m
  end.

(** State of a [psycopg2] connection object: open and idle, open inside a
    transaction, or closed. *)
Inductive ConnStatus : Type := ConnReady | ConnBegin | ConnClosed.

Record World : Type := mkWorld {
  log : list LogRecord;          (* records handed to the module logger *)
  conns : list ConnStatus;       (* every connection opened so far *)
  stdout : list string;          (* one entry per [print] *)
  stderr : list string;
  files : Dict.t string          (* files written, by path *)
}.

Definition initial_world : World := mkWorld [] [] [] [] [].

Definition M (A : Type) : Type := World -> (exn + A) * World.

Definition ret {A} (a : A) : M A := fun w => (inr a, w).

Definition bind {A B} (m : M A) (f : A -> M B) : M B :=
  fun w => match m w with
           | (inr a, w') => f a w'
           | (inl e, w') => (inl e, w')
           end.

Definition raise {A} (e : exn) : M A := fun w => (inl e, w).

(** [try: m except Exception as e: h e] *)
Definition try_except {A} (m : M A) (h : exn -> M A) : M A :=
  fun w => match m w with
           | (inr a, w') => (inr a, w')
           | (inl e, w') => h e w'
           end.

Notation "x <- m ;; k" := (bind m (fun x => k))
  (at level 61, m at next level, right associativity).
Notation "m ;;; k" := (bind m (fun _ => k))
  (at level 61, right associativity).

Definition logger (l : Level) (m : string) : M unit :=
  fun w => (inr tt, mkWorld (log w ++ [mkLog l m]) (conns w) (stdout w)
                            (stderr w) (files w)).

Definition print (s : string) : M unit :=
  fun w => (inr tt, mkWorld (log w) (conns w) (stdout w ++ [s])
                            (stderr w) (files w)).

Definition print_stderr (s : string) : M unit :=
  fun w => (inr tt, mkWorld (log w) (conns w) (stdout w)
                            (stderr w ++ [s]) (files w)).

Definition set_conns (cs : list ConnStatus) : M unit :=
  fun w => (inr tt, mkWorld (log w) cs (stdout w) (stderr w) (files w)).

Definition get_conns : M (list ConnStatus) := fun w => (inr (conns w), w).

(** ** Data model *)

Record Column : Type := mkColumn {
  col_name : string;
  col_type : string;
  col_nullable : bool;
  col_position : Z
}.

(** [topic] is annotated [str], but [_parse_create_sink] yields [None]
    when the statement has no topic clause, and [get_sinks] stores it. *)
Record Sink : Type := mkSink {
  sink_name : string;
  topic : option string;
  source_object : string;
  columns : list Column
}.

(** ** TypeMapper *)

Module TypeMapper.

Definition TYPE_MAP : Dict.t string :=
  [ ("bigint", "int64"); ("integer", "int32"); ("int", "int32");
    ("smallint", "int32"); ("real", "float32");
    ("double precision", "float64"); ("double", "float64");
    ("numeric", "double"); ("decimal", "double");
    ("text", "string"); ("varchar", "string"); ("char", "string");
    ("character", "string"); ("character varying", "string");
    ("boolean", "boolean"); ("bool", "boolean"); ("bytea", "bytes") ].

Definition TEMPORAL_TYPES : Dict.t (string * string) :=
  [ ("timestamp", ("int64", "org.apache.kafka.connect.data.Timestamp"));
    ("timestamp with time zone",
      ("int64", "org.apache.kafka.connect.data.Timestamp"));
    ("timestamp without time zone",
      ("int64", "org.apache.kafka.connect.data.Timestamp"));
    ("date", ("int32", "org.apache.kafka.connect.data.Date"));
    ("time", ("int32", "org.apache.kafka.connect.data.Time"));
    ("time with time zone", ("int32", "org.apache.kafka.connect.data.Time"));
    ("time without time zone",
      ("int32", "org.apache.kafka.connect.data.Time")) ].

(** The returned triple: target type, logical type name, extra
    properties. *)
Definition mapping : Type := string * option string * option (Dict.t json).

Definition normalize (materialize_type : string) : string :=
  PyStr.strip (PyStr.lower materialize_type).

Definition map_type (materialize_type : string) : M mapping :=
  let normalized_type := normalize materialize_type in
  match Dict.get TEMPORAL_TYPES normalized_type with
  | Some (base_type, logical_type) =>
      ret (base_type, Some logical_type, Some [("version", JInt 1)])
  | None =>
      match Dict.get TYPE_MAP normalized_type with
      | Some t => ret (t, None, None)
      | None =>
          if PyStr.endswith normalized_type "[]" then
            logger WARNING
              ("Array type '" ++ materialize_type
               ++ "' detected. Arrays are not fully supported yet. Using 'string' as fallback.") ;;;
            ret ("string", None, None)
          else if PyStr.contains "json" normalized_type then
            logger WARNING
              ("JSON type '" ++ materialize_type
               ++ "' detected. Using 'string' representation.") ;;;
            ret ("string", None, None)
          else
            logger WARNING
              ("Unknown type '" ++ materialize_type
               ++ "'. Defaulting to 'string'.") ;;;
            ret ("string", None, None)
      end
  end.

End TypeMapper.

(** ** The fragment of [re] the extractor uses

    Both patterns of [_parse_create_sink] are sequences of single
    characters and greedy repetitions of a character class, with one
    capture group around a repetition.  [search] follows the backtracking
    matcher of [re.search]: leftmost start, longest repetition first. *)

Module Re.

Inductive item : Type :=
| One (c : ascii -> bool)
| Many (c : ascii -> bool) (min : nat) (group : bool).

Definition pattern : Type := list item.

(** A greedy repetition that has taken [taken] so far: take one more
    character if the class allows and the rest then matches, otherwise
    stop here provided [min] characters were taken. *)
Fixpoint greedy {R} (c : ascii -> bool) (min : nat)
         (k : string -> string -> option R)
         (taken : string) (s : string) : option R :=
  let stop :=
    if (min <=? String.length taken)%nat then k taken s else None in
  match s with
  | String a s' =>
      if c a then
        match greedy c min k (taken ++ String a EmptyString) s' with
        | Some r => Some r
        | None => stop
        end
      else stop
  | EmptyString => stop
  end.

(** Match [p] at the start of [s]; the result is group 1. *)
Fixpoint match_here (p : pattern) (g : option string) (s : string)
  : option (option string) :=
  match p with
  | [] => Some g
  | One c :: p' =>
      match s with
      | String a s' => if c a then match_here p' g s' else None
      | EmptyString => None
      end
  | Many c min group :: p' =>
      greedy c min
        (fun taken rest =>
           match_here p' (if group then Some taken else g) rest)
        EmptyString s
  end.

(** [re.search(p, s)]: [Some g] is a match object whose [group(1)] is
    [g]; [None] is no match. *)
Fixpoint search (p : pattern) (s : string) : option (option string) :=
  match match_here p None s with
  | Some g => Some g
  | None =>
      match s with
      | EmptyString => None
      | String _ s' => search p s'
      end
  end.

Definition chr (b : ascii) : ascii -> bool := fun a => Ascii.eqb a b.
Definition not_chr (b : ascii) : ascii -> bool := fun a => negb (Ascii.eqb a b).
(** A letter under [re.IGNORECASE], among the code points below 256:
    there a letter of the pattern is matched by its two ASCII cases only.
    Beyond them the real matcher also takes U+0130 and U+0131 for I. *)
Definition is_ci (b : ascii) : ascii -> bool :=
  fun a => Ascii.eqb (PyStr.lower_char a) (PyStr.lower_char b).
Definition space : ascii -> bool := PyStr.isspace.
Definition not_space : ascii -> bool := fun a => negb (PyStr.isspace a).

Fixpoint lit (s : string) : pattern :=
  match s with
  | EmptyString => []
  | String a s' => One (chr a) :: lit s'
  end.

Fixpoint lit_ci (s : string) : pattern :=
  match s with
  | EmptyString => []
  | String a s' => One (is_ci a) :: lit_ci s'
  end.

Definition dquote : ascii := ascii_of_nat 34.
Definition squote : ascii := ascii_of_nat 39.

End Re.

(** ** The catalog behind the connection *)

Record SinkRow : Type := mkSinkRow {
  sr_name : string;
  sr_create_sql : string;
  sr_type : string
}.

(** A row of [mz_materialized_views] or [mz_tables] *)
Record ObjectRow : Type := mkObjectRow { obj_id : string; obj_name : string }.

Record ColumnRow : Type := mkColumnRow {
  cr_id : string;
  cr_name : string;
  cr_type : string;
  cr_nullable : bool;
  cr_position : Z
}.

Record Catalog : Type := mkCatalog {
  mz_sinks : list SinkRow;
  mz_materialized_views : list ObjectRow;
  mz_tables : list ObjectRow;
  mz_columns : list ColumnRow
}.

Module Sql.

(** [SELECT s.name, s.create_sql FROM mz_sinks s WHERE s.type = 'kafka']
    with [AND s.name IN (names)] when [names] is given.  Without an
    ORDER BY the rows come in the catalog's own order. *)
Definition select_sinks (cat : Catalog) (names : option (list string))
  : list SinkRow :=
  filter
    (fun r =>
       String.eqb (sr_type r) "kafka"
       && match names with
          | Some ns => existsb (String.eqb (sr_name r)) ns
          | None => true
          end)
    (mz_sinks cat).

(** [ORDER BY c.position], as a stable insertion sort *)
Fixpoint insert_by_position (r : ColumnRow) (l : list ColumnRow)
  : list ColumnRow :=
  match l with
  | [] => [r]
  | x :: l' =>
      if (cr_position r <? cr_position x)%Z then r :: l
      else x :: insert_by_position r l'
  end.

Definition order_by_position (l : list ColumnRow) : list ColumnRow :=
  fold_right insert_by_position [] l.

(** [SELECT c.name, c.type, c.nullable, c.position FROM objs v JOIN mz_columns c ON v.id = c.id
     WHERE v.name = name ORDER BY c.position] *)
Definition select_columns (objs : list ObjectRow) (cols : list ColumnRow)
           (name : string) : list ColumnRow :=
  order_by_position
    (flat_map
       (fun v =>
          if String.eqb (obj_name v) name
          then filter (fun c => String.eqb (obj_id v) (cr_id c)) cols
          else [])
       objs).

End Sql.

(** ** psycopg2: connections and cursors *)

Record ConnectionParams : Type := mkParams {
  host : string;
  port : Z;
  user : string;
  password : option string;
  database : string
}.

(** What answers at given connection parameters: a catalog, or the text
    of the error [psycopg2.connect] raises. *)
Definition Network : Type := ConnectionParams -> string + Catalog.

(** A connection object: its slot in [conns] and the catalog it reads. *)
Record connection : Type := mkConn { conn_id : nat; conn_db : Catalog }.

Module Psycopg2.

Fixpoint set_nth (i : nat) (st : ConnStatus) (l : list ConnStatus)
  : list ConnStatus :=
  match l, i with
  | [], _ => []
  | _ :: l', O => st :: l'
  | x :: l', S i' => x :: set_nth i' st l'
  end.

Definition set_status (c : connection) (st : ConnStatus) : M unit :=
  cs <- get_conns ;; set_conns (set_nth (conn_id c) st cs).

(** [psycopg2.connect] with the stored parameters *)
Definition connect (net : Network) (params : ConnectionParams)
  : M connection :=
  match net params with
  | inl msg => raise (OperationalError msg)
  | inr cat =>
      cs <- get_conns ;;
      set_conns (cs ++ [ConnReady])%list ;;;
      ret (mkConn (List.length cs) cat)
  end.

Definition commit (c : connection) : M unit := set_status c ConnReady.
Definition rollback (c : connection) : M unit := set_status c ConnReady.
Definition close (c : connection) : M unit := set_status c ConnClosed.

(** [with conn as x: body].  The connection's [__exit__] commits when
    the body ends normally and rolls back when it raises; it does not
    call [close]. *)
Definition with_connection {A} (c : connection) (body : connection -> M A)
  : M A :=
  fun w =>
    match body c w with
    | (inr a, w') => (commit c ;;; ret a) w'
    | (inl e, w') => (rollback c ;;; raise e) w'
    end.

(** A connection that only the local variables of a call refer to.
    When the call returns, its frame is dropped and the connection object
    is finalised, which closes the session.  When the call raises, the
    traceback of the exception keeps the frame, and the connection stays
    as the body left it. *)
Definition held_by_frame {A} (c : connection) (call : M A) : M A :=
  fun w =>
    match call w with
    | (inr a, w') => (close c ;;; ret a) w'
    | (inl e, w') => (inl e, w')
    end.

(** [cur.execute(query, args); cur.fetchall()]: the first statement on
    an idle connection opens a transaction.  Here the catalog answers
    every statement; [Unreliable] below has the server that fails one. *)
Definition execute_fetchall {R} (c : connection) (rows : Catalog -> list R)
  : M (list R) :=
  set_status c ConnBegin ;;; ret (rows (conn_db c)).

End Psycopg2.

(** ** MaterializeSchemaExtractor *)

Module MaterializeSchemaExtractor.

Record t : Type := mkExtractor { connection_params : ConnectionParams }.

(** [__init__]: the password is kept only when it is a non-empty
    string. *)
Definition init (host : string) (port : Z) (user : string)
           (password : option string) (database : string) : t :=
  mkExtractor
    (mkParams host port user
       (match password with
        | Some p => if PyStr.truthy p then Some p else None
        | None => None
        end)
       database).

Definition connect (net : Network) (self : t) : M connection :=
  try_except (Psycopg2.connect net (connection_params self))
    (fun e =>
       match e with
       | OperationalError m =>
           logger ERROR ("Failed to connect to Materialize: " ++ m) ;;;
           raise e
       | _ => raise e
       end).

(** [TOPIC\s*=\s*'([^']+)'] with [re.IGNORECASE] *)
Definition topic_pattern : Re.pattern :=
  (Re.lit_ci "TOPIC"
   ++ [ Re.Many Re.space 0 false; Re.One (Re.chr "="%char);
        Re.Many Re.space 0 false; Re.One (Re.chr Re.squote);
        Re.Many (Re.not_chr Re.squote) 1 true;
        Re.One (Re.chr Re.squote) ])%list.

(** [FROM\s+\[[^\s]+\s+AS\s+Q[^Q]+Q\.Q[^Q]+Q\.Q([^Q]+)Q\]], writing Q
    for the double quote; matched case-sensitively. *)
Definition source_pattern : Re.pattern :=
  (Re.lit "FROM"
   ++ [ Re.Many Re.space 1 false; Re.One (Re.chr "["%char);
        Re.Many Re.not_space 1 false; Re.Many Re.space 1 false ]
   ++ Re.lit "AS"
   ++ [ Re.Many Re.space 1 false; Re.One (Re.chr Re.dquote);
        Re.Many (Re.not_chr Re.dquote) 1 false;
        Re.One (Re.chr Re.dquote); Re.One (Re.chr "."%char);
        Re.One (Re.chr Re.dquote);
        Re.Many (Re.not_chr Re.dquote) 1 false;
        Re.One (Re.chr Re.dquote); Re.One (Re.chr "."%char);
        Re.One (Re.chr Re.dquote);
        Re.Many (Re.not_chr Re.dquote) 1 true;
        Re.One (Re.chr Re.dquote); Re.One (Re.chr "]"%char) ])%list.

(** [m.group(1) if m else None] *)
Definition group1 (m : option (option string)) : option string :=
  match m with
  | Some g => g
  | None => None
  end.

Definition _parse_create_sink (create_sql : string)
  : option string * option string :=
  let topic_match := Re.search topic_pattern create_sql in
  let topic := group1 topic_match in
  let source_match := Re.search source_pattern create_sql in
  let source_object := group1 source_match in
  (topic, source_object).

Definition column_of_row (row : ColumnRow) : Column :=
  mkColumn (cr_name row) (cr_type row) (cr_nullable row) (cr_position row).

Definition _get_columns (cur : connection) (object_name : string)
  : M (list Column) :=
  rows <- Psycopg2.execute_fetchall cur
            (fun cat => Sql.select_columns (mz_materialized_views cat)
                          (mz_columns cat) object_name) ;;
  rows <- match rows with
          | [] =>
              Psycopg2.execute_fetchall cur
                (fun cat => Sql.select_columns (mz_tables cat)
                              (mz_columns cat) object_name)
          | _ => ret rows
          end ;;
  ret (map column_of_row rows).

(** The body of [for row in sink_rows], with [sinks] the list built so
    far. *)
Fixpoint sinks_loop (cur : connection) (sink_rows : list SinkRow)
         (sinks : list Sink) : M (list Sink) :=
  match sink_rows with
  | [] => ret sinks
  | row :: rest =>
      let sink_name := sr_name row in
      let create_sql := sr_create_sql row in
      let '(topic, source_object) := _parse_create_sink create_sql in
      match source_object with
      | Some so =>
          if PyStr.truthy so then
            columns <- _get_columns cur so ;;
            match columns with
            | [] =>
                logger WARNING
                  ("No columns found for sink '" ++ sink_name
                   ++ "' (source: " ++ so ++ ")") ;;;
                sinks_loop cur rest sinks
            | _ =>
                sinks_loop cur rest
                  (sinks ++ [mkSink sink_name topic so columns])%list
            end
          else
            logger WARNING
              ("Could not parse source object for sink '" ++ sink_name
               ++ "'") ;;;
            sinks_loop cur rest sinks
      | None =>
          logger WARNING
            ("Could not parse source object for sink '" ++ sink_name
             ++ "'") ;;;
          sinks_loop cur rest sinks
      end
  end.

(** [if sink_names:] an absent or empty list selects every sink. *)
Definition name_filter (sink_names : option (list string))
  : option (list string) :=
  match sink_names with
  | Some (n :: ns) => Some (n :: ns)
  | _ => None
  end.

(** The cursor adds no state of its own to the model: statements run on
    the connection it belongs to, so [cur] is that connection.  [conn] is
    a local variable, so the connection lives as long as the frame of the
    call. *)
Definition get_sinks (net : Network) (self : t)
           (sink_names : option (list string)) : M (list Sink) :=
  c <- connect net self ;;
  Psycopg2.held_by_frame c
    (Psycopg2.with_connection c
       (fun conn =>
          let cur := conn in
          sink_rows <- Psycopg2.execute_fetchall cur
                         (fun cat =>
                            Sql.select_sinks cat (name_filter sink_names)) ;;
          match sink_rows with
          | [] => logger WARNING "No Kafka sinks found" ;;; ret []
          | _ => sinks_loop cur sink_rows []
          end)).

End MaterializeSchemaExtractor.

(** ** SchemaGenerator *)

Module SchemaGenerator.

Record t : Type := mkGenerator { schema_namespace : string }.

(** [__init__(schema_namespace='materialize')] *)
Definition init (schema_namespace : option string) : t :=
  mkGenerator
    (match schema_namespace with
     | Some ns => ns
     | None => "materialize"
     end).

Definition truthy_props (p : option (Dict.t json)) : option (Dict.t json) :=
  match p with
  | Some (kv :: d) => Some (kv :: d)
  | _ => None
  end.

(** One pass of [for column in sink.columns]: the field dictionary. *)
Definition field_of (column : Column) : M (Dict.t json) :=
  r <- TypeMapper.map_type (col_type column) ;;
  let '(kafka_type, logical_type, extra_props) := r in
  let field :=
    [ ("type", JStr kafka_type);
      ("optional", JBool (col_nullable column));
      ("field", JStr (col_name column)) ] in
  ret (match logical_type with
       | Some lt =>
           if PyStr.truthy lt then
             let field := Dict.set field "name" (JStr lt) in
             match truthy_props extra_props with
             | Some props => Dict.update field props
             | None => field
             end
           else field
       | None => field
       end).

Fixpoint fields_loop (cols : list Column) (fields : list (Dict.t json))
  : M (list (Dict.t json)) :=
  match cols with
  | [] => ret fields
  | column :: rest =>
      field <- field_of column ;;
      fields_loop rest (fields ++ [field])%list
  end.

Definition generate_schema (self : t) (sink : Sink) : M (Dict.t json) :=
  fields <- fields_loop (columns sink) [] ;;
  ret [ ("type", JStr "struct");
        ("fields", JList (map JDict fields));
        ("optional", JBool false);
        ("name", JStr (schema_namespace self ++ "." ++ source_object sink)) ].

End SchemaGenerator.

(** ** OutputFormatter *)

Module OutputFormatter.

Definition default_suffix : string := "-withschema".

Definition suffix_or_default (output_suffix : option string) : string :=
  match output_suffix with
  | Some s => s
  | None => default_suffix
  end.

(** [input_topic.replace('-noschema', '') + output_suffix]; on [None]
    the attribute lookup raises. *)
Definition output_topic_of (input_topic : option string)
           (output_suffix : string) : M (string * string) :=
  match input_topic with
  | Some t =>
      ret (t, PyStr.replace t "-noschema" EmptyString ++ output_suffix)
  | None =>
      raise (AttributeError "'NoneType' object has no attribute 'replace'")
  end.

Fixpoint properties_loop (pairs : list (Sink * Dict.t json))
         (output_suffix : string) (lines : list string)
  : M (list string) :=
  match pairs with
  | [] => ret lines
  | (sink, schema) :: rest =>
      io <- output_topic_of (topic sink) output_suffix ;;
      let '(input_topic, output_topic) := io in
      let schema_json := dumps_compact (JDict schema) in
      let block :=
        [ "# Sink: " ++ sink_name sink ++ " (from "
            ++ source_object sink ++ ")";
          "schema.topic." ++ input_topic ++ "=" ++ schema_json;
          "output.topic." ++ input_topic ++ "=" ++ output_topic;
          EmptyString ] in
      properties_loop rest output_suffix (lines ++ block)%list
  end.

Definition format_properties (sinks : list Sink)
           (schemas : list (Dict.t json)) (output_suffix : option string)
  : M string :=
  let lines :=
    [ "# Generated schema configurations";
      "# Materialize JSON Schema Attacher";
      EmptyString ] in
  lines <- properties_loop (combine sinks schemas)
             (suffix_or_default output_suffix) lines ;;
  ret (PyStr.join nl lines).

Fixpoint json_loop (pairs : list (Sink * Dict.t json))
         (output_suffix : string) (output : Dict.t json)
  : M (Dict.t json) :=
  match pairs with
  | [] => ret output
  | (sink, schema) :: rest =>
      io <- output_topic_of (topic sink) output_suffix ;;
      let '(input_topic, output_topic) := io in
      json_loop rest output_suffix
        (Dict.set output (sink_name sink)
           (JDict [ ("input_topic", JStr input_topic);
                    ("output_topic", JStr output_topic);
                    ("source_object", JStr (source_object sink));
                    ("schema", JDict schema) ]))
  end.

Definition format_json (sinks : list Sink) (schemas : list (Dict.t json))
           (output_suffix : option string) : M string :=
  output <- json_loop (combine sinks schemas)
              (suffix_or_default output_suffix) [] ;;
  ret (dumps_indent 0 (JDict output)).

End OutputFormatter.

(** ** The command-line run *)

Inductive Format : Type := Properties | JsonFormat.

Record Args : Type := mkArgs {
  arg_sinks : option (list string);
  arg_format : Format;
  arg_output : option string;
  arg_schema_namespace : string;
  arg_output_suffix : string;
  arg_verbose : bool
}.

(** What lies outside the process: the servers that answer, and the paths
    that can be opened for writing. *)
Record Env : Type := mkEnv { network : Network; writable : string -> bool }.

Definition str_of_topic (t : option string) : string :=
  match t with
  | Some s => s
  | None => "None"
  end.

(** [with open(path, 'w') as f: f.write(text)], as one step.  A path
    that cannot be opened raises [OSError]; the model gives it the text
    of a permission error, whatever the cause. *)
Definition write_file (env : Env) (path text : string) : M unit :=
  if writable env path then
    fun w => (inr tt, mkWorld (log w) (conns w) (stdout w) (stderr w)
                              (Dict.set (files w) path text))
  else raise (OSError ("[Errno 13] Permission denied: '" ++ path ++ "'")).

Fixpoint schemas_loop (generator : SchemaGenerator.t) (sinks : list Sink)
         (schemas : list (Dict.t json)) : M (list (Dict.t json)) :=
  match sinks with
  | [] => ret schemas
  | sink :: rest =>
      logger INFO
        ("Generating schema for sink '" ++ sink_name sink ++ "' (topic: "
         ++ str_of_topic (topic sink) ++ ")") ;;;
      schema <- SchemaGenerator.generate_schema generator sink ;;
      schemas_loop generator rest (schemas ++ [schema])%list
  end.

(** [main] from its [try] statement on, after the arguments and the
    environment variables have been read into [args] and the connection
    parameters.  The result is the exit code. *)
Definition main (env : Env) (host : string) (port : Z) (user : string)
           (password : option string) (database : string) (args : Args)
  : M Z :=
  try_except
    (logger INFO
       ("Connecting to Materialize at " ++ host ++ ":" ++ PyStr.of_Z port
        ++ "...") ;;;
     let extractor :=
       MaterializeSchemaExtractor.init host port user password database in
     logger INFO "Querying Kafka sinks..." ;;;
     sinks <- MaterializeSchemaExtractor.get_sinks (network env) extractor
                (arg_sinks args) ;;
     match sinks with
     | [] => logger ERROR "No sinks found" ;;; ret 1%Z
     | _ =>
         logger INFO
           ("Found " ++ PyStr.of_nat (List.length sinks) ++ " sink(s)") ;;;
         let generator :=
           SchemaGenerator.init (Some (arg_schema_namespace args)) in
         schemas <- schemas_loop generator sinks [] ;;
         output <- match arg_format args with
                   | Properties =>
                       OutputFormatter.format_properties sinks schemas
                         (Some (arg_output_suffix args))
                   | JsonFormat =>
                       OutputFormatter.format_json sinks schemas
                         (Some (arg_output_suffix args))
                   end ;;
         match arg_output args with
         | Some (String a p) =>
             let path := String a p in
             write_file env path output ;;;
             logger INFO ("Schema configurations written to " ++ path)
         | _ => print output
         end ;;;
         logger INFO "Schema generation completed successfully" ;;;
         ret 0%Z
     end)
    (fun e =>
       logger ERROR ("Error: " ++ exn_str e) ;;;
       (if arg_verbose args
        then print_stderr "Traceback (most recent call last):"
        else ret tt) ;;;
       ret 1%Z).

(** ** Vocabulary of the stated properties

    The definitions below restate what the design document says in its own
    words; the theorems compare them with the code above. *)

Module Spec.

Definition timestamp_names : list string :=
  [ "timestamp"; "timestamp with time zone"; "timestamp without time zone" ].

Definition date_time_names : list string :=
  [ "date"; "time"; "time with time zone"; "time without time zone" ].

Definition temporal_names : list string :=
  (timestamp_names ++ date_time_names)%list.

(** [int64] for the timestamp variants, [int32] for date and time. *)
Definition temporal_base (name : string) : string :=
  if existsb (String.eqb name) timestamp_names then "int64" else "int32".

Definition is_temporal (source_type : string) : bool :=
  Dict.mem TypeMapper.TEMPORAL_TYPES (TypeMapper.normalize source_type).

Definition is_basic (source_type : string) : bool :=
  Dict.mem TypeMapper.TYPE_MAP (TypeMapper.normalize source_type).

Definition add_log (w : World) (l : list LogRecord) : World :=
  mkWorld (log w ++ l) (conns w) (stdout w) (stderr w) (files w).

(** The target type the Type Mapper gives a source type, whatever the
    state of the log. *)
Definition target_type (source_type ty : string) : Prop :=
  forall w, exists lt props w',
    TypeMapper.map_type source_type w = (inr (ty, lt, props), w').

(** A field descriptor carries the column's name, nullability and mapped
    type. *)
Definition describes (c : Column) (fd : Dict.t json) : Prop :=
  Dict.get fd "field" = Some (JStr (col_name c))
  /\ Dict.get fd "optional" = Some (JBool (col_nullable c))
  /\ exists ty, Dict.get fd "type" = Some (JStr ty)
                /\ target_type (col_type c) ty.

(** [optional == column.nullable], and the logical name with its version
    is there exactly for a temporal source type. *)
Definition field_invariant (c : Column) (fd : Dict.t json) : Prop :=
  Dict.get fd "optional" = Some (JBool (col_nullable c))
  /\ if is_temporal (col_type c)
     then (exists lt, lt <> EmptyString
                      /\ Dict.get fd "name" = Some (JStr lt))
          /\ Dict.get fd "version" = Some (JInt 1)
     else Dict.get fd "name" = None /\ Dict.get fd "version" = None.

Definition schema_document (name : string) (fields : list (Dict.t json))
  : Dict.t json :=
  [ ("type", JStr "struct");
    ("fields", JList (map JDict fields));
    ("optional", JBool false);
    ("name", JStr name) ].

Definition namespace_or_default (ns : option string) : string :=
  match ns with
  | Some n => n
  | None => "materialize"
  end.

(** Input topic with the marker removed, then the suffix. *)
Definition derived_output_topic (input_topic suffix : string) : string :=
  PyStr.replace input_topic "-noschema" EmptyString ++ suffix.

Definition has_topic (p : Sink * Dict.t json) : Prop :=
  topic (fst p) <> None.

(** The four lines of the properties encoding for one pair. *)
Definition properties_block (suffix : string) (p : Sink * Dict.t json)
  : list string :=
  let t := str_of_topic (topic (fst p)) in
  [ "# Sink: " ++ sink_name (fst p) ++ " (from "
      ++ source_object (fst p) ++ ")";
    "schema.topic." ++ t ++ "=" ++ dumps_compact (JDict (snd p));
    "output.topic." ++ t ++ "=" ++ derived_output_topic t suffix;
    EmptyString ].

Definition properties_header : list string :=
  [ "# Generated schema configurations";
    "# Materialize JSON Schema Attacher";
    EmptyString ].

(** The value stored under a sink's name in the JSON encoding. *)
Definition json_entry (suffix : string) (p : Sink * Dict.t json) : json :=
  let t := str_of_topic (topic (fst p)) in
  JDict [ ("input_topic", JStr t);
          ("output_topic", JStr (derived_output_topic t suffix));
          ("source_object", JStr (source_object (fst p)));
          ("schema", JDict (snd p)) ].

(** The dictionary [format_json] builds: one assignment per pair. *)
Definition json_output (suffix : string) (pairs : list (Sink * Dict.t json))
           (output : Dict.t json) : Dict.t json :=
  fold_left
    (fun o p => Dict.set o (sink_name (fst p)) (json_entry suffix p))
    pairs output.

(** Columns of an object: as a materialized view, else as a table. *)
Definition columns_of (cat : Catalog) (object_name : string) : list Column :=
  map MaterializeSchemaExtractor.column_of_row
    (match Sql.select_columns (mz_materialized_views cat) (mz_columns cat)
             object_name with
     | [] => Sql.select_columns (mz_tables cat) (mz_columns cat) object_name
     | rows => rows
     end).

(** The source object parsed from a row's SQL, when there is one. *)
Definition parsed_source (row : SinkRow) : option string :=
  match snd (MaterializeSchemaExtractor._parse_create_sink
               (sr_create_sql row)) with
  | Some so => if PyStr.truthy so then Some so else None
  | None => None
  end.

Definition parsed_topic (row : SinkRow) : option string :=
  fst (MaterializeSchemaExtractor._parse_create_sink (sr_create_sql row)).

(** A row is skipped when its source object does not parse or has no
    columns; otherwise it yields one sink. *)
Definition sink_of_row (cat : Catalog) (row : SinkRow) : list Sink :=
  match parsed_source row with
  | None => []
  | Some so =>
      match columns_of cat so with
      | [] => []
      | cols => [mkSink (sr_name row) (parsed_topic row) so cols]
      end
  end.

(** The warning a skipped row leaves in the log. *)
Definition skip_warning (cat : Catalog) (row : SinkRow) : list LogRecord :=
  match parsed_source row with
  | None =>
      [mkLog WARNING ("Could not parse source object for sink '"
                      ++ sr_name row ++ "'")]
  | Some so =>
      match columns_of cat so with
      | [] =>
          [mkLog WARNING ("No columns found for sink '" ++ sr_name row
                          ++ "' (source: " ++ so ++ ")")]
      | _ => []
      end
  end.

(** Patterns whose group, when there is one, cannot come out empty:
    every captured repetition takes at least one character. *)
Fixpoint has_group (p : Re.pattern) : bool :=
  match p with
  | [] => false
  | Re.One _ :: p' => has_group p'
  | Re.Many _ _ g :: p' => g || has_group p'
  end.

Fixpoint groups_take_one (p : Re.pattern) : bool :=
  match p with
  | [] => true
  | Re.One _ :: p' => groups_take_one p'
  | Re.Many _ min g :: p' =>
      (negb g || (1 <=? min)%nat) && groups_take_one p'
  end.

Definition sorted_by_position (cols : list Column) : Prop :=
  StronglySorted (fun a b => (col_position a <= col_position b)%Z) cols.

(** A source type is temporal when its lower-cased, trimmed name is one
    of the seven temporal names. *)
Definition temporal_source (source_type : string) : bool :=
  existsb (String.eqb (PyStr.strip (PyStr.lower source_type))) temporal_names.

(** [optional == column.nullable], and the logical name with its version
    is there exactly for a temporal source type, temporal being read off
    the list of names above. *)
Definition field_invariant_by_name (c : Column) (fd : Dict.t json) : Prop :=
  Dict.get fd "optional" = Some (JBool (col_nullable c))
  /\ if temporal_source (col_type c)
     then (exists lt, lt <> EmptyString
                      /\ Dict.get fd "name" = Some (JStr lt))
          /\ Dict.get fd "version" = Some (JInt 1)
     else Dict.get fd "name" = None /\ Dict.get fd "version" = None.

(** A sink over a timestamp written in mixed case with blanks around it,
    a date and a text column. *)
Definition events_sink : Sink :=
  mkSink "events_sink" (Some "events-noschema") "events"
    [ mkColumn "at" "  TIMESTAMP With Time Zone " false 1;
      mkColumn "day" "Date" true 2;
      mkColumn "note" "text" true 3 ].

End Spec.

(** ** A sample catalog

    Four Kafka sinks: one complete, one whose statement names its source
    without the bracketed form, one whose topic clause has no equals sign,
    and one whose source object has no columns. *)

Module Example.

Definition q : string := String Re.dquote EmptyString.

Definition from_clause (id object : string) : string :=
  "FROM [" ++ id ++ " AS " ++ q ++ "materialize" ++ q ++ "." ++ q
  ++ "public" ++ q ++ "." ++ q ++ object ++ q ++ "]".

Definition users_sql : string :=
  "CREATE SINK users_sink " ++ from_clause "u76" "users_processed"
  ++ " INTO KAFKA CONNECTION kafka (TOPIC = 'users-noschema') FORMAT JSON".

Definition broken_sql : string :=
  "CREATE SINK broken_sink FROM users_processed"
  ++ " INTO KAFKA CONNECTION kafka (TOPIC = 'broken-noschema') FORMAT JSON".

Definition orders_sql : string :=
  "CREATE SINK orders_sink " ++ from_clause "u77" "orders"
  ++ " INTO KAFKA CONNECTION kafka (TOPIC 'orders-noschema') FORMAT JSON".

Definition ghost_sql : string :=
  "CREATE SINK ghost_sink " ++ from_clause "u78" "ghost"
  ++ " INTO KAFKA CONNECTION kafka (TOPIC = 'ghost-noschema') FORMAT JSON".

Definition catalog : Catalog :=
  mkCatalog
    [ mkSinkRow "users_sink" users_sql "kafka";
      mkSinkRow "broken_sink" broken_sql "kafka";
      mkSinkRow "orders_sink" orders_sql "kafka";
      mkSinkRow "ghost_sink" ghost_sql "kafka" ]
    [ mkObjectRow "u76" "users_processed" ]
    [ mkObjectRow "u77" "orders" ]
    [ mkColumnRow "u76" "created_at" "timestamp" false 3;
      mkColumnRow "u76" "id" "bigint" false 1;
      mkColumnRow "u77" "order_id" "bigint" false 1;
      mkColumnRow "u76" "email" "text" true 2 ].

Definition env : Env := mkEnv (fun _ => inr catalog) (fun _ => true).

Definition extractor : MaterializeSchemaExtractor.t :=
  MaterializeSchemaExtractor.init "localhost" 6875 "materialize" None
    "materialize".

Definition users_columns : list Column :=
  [ mkColumn "id" "bigint" false 1;
    mkColumn "email" "text" true 2;
    mkColumn "created_at" "timestamp" false 3 ].

Definition users_sink : Sink :=
  mkSink "users_sink" (Some "users-noschema") "users_processed"
    users_columns.

Definition orders_sink : Sink :=
  mkSink "orders_sink" None "orders" [ mkColumn "order_id" "bigint" false 1 ].

Definition args (sinks : option (list string)) : Args :=
  mkArgs sinks Properties None "materialize" "-withschema" false.

End Example.

(** ** Pure readings of the effectful code

    What a call computes and what it sends to the log, as plain functions
    of its arguments. *)

Module Pure.

(** The types a field descriptor can carry. *)
Definition field_types : list string :=
  [ "int32"; "int64"; "float32"; "float64"; "double"; "boolean"; "string";
    "bytes" ].

(** The triple [map_type] returns for a normalized type name. *)
Definition mapping_of (normalized_type : string) : TypeMapper.mapping :=
  match Dict.get TypeMapper.TEMPORAL_TYPES normalized_type with
  | Some (base_type, logical_type) =>
      (base_type, Some logical_type, Some [("version", JInt 1)])
  | None =>
      match Dict.get TypeMapper.TYPE_MAP normalized_type with
      | Some t => (t, None, None)
      | None => ("string", None, None)
      end
  end.

(** A type name found in neither table. *)
Definition unmapped (source_type : string) : bool :=
  negb (Spec.is_temporal source_type) && negb (Spec.is_basic source_type).

(** The records [map_type] logs for a type name: none when a table has
    it, one warning otherwise. *)
Definition warnings_of (materialize_type : string) : list LogRecord :=
  if unmapped materialize_type then
    let normalized_type := TypeMapper.normalize materialize_type in
    if PyStr.endswith normalized_type "[]" then
      [mkLog WARNING
         ("Array type '" ++ materialize_type
          ++ "' detected. Arrays are not fully supported yet. Using 'string' as fallback.")]
    else if PyStr.contains "json" normalized_type then
      [mkLog WARNING
         ("JSON type '" ++ materialize_type
          ++ "' detected. Using 'string' representation.")]
    else
      [mkLog WARNING
         ("Unknown type '" ++ materialize_type
          ++ "'. Defaulting to 'string'.")]
  else [].

(** The field dictionary of a column. *)
Definition field_of (c : Column) : Dict.t json :=
  let '(kafka_type, logical_type, _) :=
    mapping_of (TypeMapper.normalize (col_type c)) in
  ([ ("type", JStr kafka_type);
     ("optional", JBool (col_nullable c));
     ("field", JStr (col_name c)) ]
   ++ match logical_type with
      | Some lt => [ ("name", JStr lt); ("version", JInt 1) ]
      | None => []
      end)%list.

Definition schema_of (namespace : string) (sink : Sink) : Dict.t json :=
  Spec.schema_document (namespace ++ "." ++ source_object sink)
    (map field_of (columns sink)).

Definition column_warnings (cols : list Column) : list LogRecord :=
  flat_map (fun c => warnings_of (col_type c)) cols.

(** What the schema loop of the run logs for one sink. *)
Definition sink_records (sink : Sink) : list LogRecord :=
  mkLog INFO
    ("Generating schema for sink '" ++ sink_name sink ++ "' (topic: "
     ++ str_of_topic (topic sink) ++ ")")
  :: column_warnings (columns sink).

Definition printable (a : ascii) : bool :=
  ((32 <=? PyStr.code a) && (PyStr.code a <=? 126))%nat.

Fixpoint all_chars (p : ascii -> bool) (s : string) : bool :=
  match s with
  | EmptyString => true
  | String a s' => p a && all_chars p s'
  end.

(** [t] occurs in [s]. *)
Definition substring (t s : string) : Prop :=
  exists pre post, s = pre ++ t ++ post.


Definition sink_names (pairs : list (Sink * Dict.t json)) : list string :=
  map (fun p => sink_name (fst p)) pairs.

(** Every pair's sink carries a topic. *)
Definition all_topics (pairs : list (Sink * Dict.t json)) : bool :=
  forallb (fun p => match topic (fst p) with
                    | Some _ => true
                    | None => false
                    end) pairs.

Definition missing_topic : exn :=
  AttributeError "'NoneType' object has no attribute 'replace'".

Definition field_keys (c : Column) : list string :=
  if Spec.is_temporal (col_type c)
  then [ "type"; "optional"; "field"; "name"; "version" ]
  else [ "type"; "optional"; "field" ].

(** What it means for a pattern to match exactly the string [m], entered
    with group [g] and left with group [r]: every [One] takes one
    character of its class, every [Many] takes at least [min] characters
    of its class, and a captured [Many] sets the group. *)
Inductive Matches : Re.pattern -> string -> option string -> option string
                    -> Prop :=
| MatchesNil (g : option string) : Matches [] EmptyString g g
| MatchesOne (c : ascii -> bool) (p : Re.pattern) (a : ascii) (m : string)
             (g r : option string) :
    c a = true -> Matches p m g r ->
    Matches (Re.One c :: p) (String a m) g r
| MatchesMany (c : ascii -> bool) (min : nat) (grp : bool) (p : Re.pattern)
              (x m : string) (g r : option string) :
    all_chars c x = true -> (min <= String.length x)%nat ->
    Matches p m (if grp then Some x else g) r ->
    Matches (Re.Many c min grp :: p) (x ++ m) g r.

Definition dq : string := String Re.dquote EmptyString.
Definition sq : string := String Re.squote EmptyString.

(** A topic clause: the keyword in any case, [=] with optional
    whitespace around it, and the quoted name. *)
Definition topic_clause (kw ws1 ws2 t : string) : string :=
  kw ++ ws1 ++ "=" ++ ws2 ++ sq ++ t ++ sq.

(** A source clause: [FROM [id AS "db"."schema"."object"]]. *)
Definition source_clause (ws1 id ws2 ws3 db sch so : string) : string :=
  "FROM" ++ ws1 ++ "[" ++ id ++ ws2 ++ "AS" ++ ws3
  ++ dq ++ db ++ dq ++ "." ++ dq ++ sch ++ dq ++ "." ++ dq ++ so ++ dq ++ "]".

Definition nonempty_of (c : ascii -> bool) (s : string) : Prop :=
  s <> EmptyString /\ all_chars c s = true.

(** The formatter the run picks for a format. *)
Definition formatter_of (f : Format)
  : list Sink -> list (Dict.t json) -> option string -> M string :=
  match f with
  | Properties => OutputFormatter.format_properties
  | JsonFormat => OutputFormatter.format_json
  end.

Definition json_to_file : Args :=
  mkArgs (Some ["users_sink"]) JsonFormat (Some "schemas.json") "materialize"
    "-withschema" false.

End Pure.

(** ** The start of the run

    [main] between [parse_args] and its [try] statement: each connection
    parameter is taken from its environment variable when that is set
    and from the parsed arguments otherwise, and the port goes through
    [int].  An exception here is outside the [try]. *)



Section Startup.

(** [int] on a string: the integer, or [None] where Python raises
    [ValueError]. *)
Variable py_int : string -> option Z.

(** [os.getenv]: the value of a variable, when it is set. *)
Variable getenv : string -> option string.



End Startup.




(** ** The extractor against a server that can fail a statement

    [MaterializeSchemaExtractor] above reads a catalog that answers every
    statement.  Here the server may answer a statement with an error,
    which [cur.execute] raises inside the [with] block.  The code is the
    same; with a server that never fails the two agree. *)

Inductive Statement : Type :=
| SelectSinks (names : option (list string))
| SelectViewColumns (object_name : string)
| SelectTableColumns (object_name : string).

(** A server: the catalog it holds and, for each statement, the text of
    the error it answers with, if any. *)
Record Server : Type := mkServer {
  catalog_of : Catalog;
  failure : Statement -> option string
}.

Definition reliable (cat : Catalog) : Server := mkServer cat (fun _ => None).

Module Unreliable.

Definition Network : Type := ConnectionParams -> string + Server.

Record cursor : Type := mkCursor { cur_conn : connection; cur_server : Server }.

(** [psycopg2.connect] with the stored parameters *)
Definition psycopg2_connect (net : Network) (params : ConnectionParams)
  : M cursor :=
  match net params with
  | inl msg => raise (OperationalError msg)
  | inr srv =>
      cs <- get_conns ;;
      set_conns (cs ++ [ConnReady])%list ;;;
      ret (mkCursor (mkConn (List.length cs) (catalog_of srv)) srv)
  end.

Definition connect (net : Network) (self : MaterializeSchemaExtractor.t)
  : M cursor :=
  try_except
    (psycopg2_connect net (MaterializeSchemaExtractor.connection_params self))
    (fun e =>
       match e with
       | OperationalError m =>
           logger ERROR ("Failed to connect to Materialize: " ++ m) ;;;
           raise e
       | _ => raise e
       end).

(** [cur.execute(query, args); cur.fetchall()]: the statement opens a
    transaction on an idle connection, and raises the server's error when
    the server fails it. *)
Definition execute_fetchall {R} (cur : cursor) (q : Statement)
           (rows : Catalog -> list R) : M (list R) :=
  Psycopg2.set_status (cur_conn cur) ConnBegin ;;;
  match failure (cur_server cur) q with
  | Some msg => raise (DatabaseError msg)
  | None => ret (rows (catalog_of (cur_server cur)))
  end.

Definition _get_columns (cur : cursor) (object_name : string)
  : M (list Column) :=
  rows <- execute_fetchall cur (SelectViewColumns object_name)
            (fun cat => Sql.select_columns (mz_materialized_views cat)
                          (mz_columns cat) object_name) ;;
  rows <- match rows with
          | [] =>
              execute_fetchall cur (SelectTableColumns object_name)
                (fun cat => Sql.select_columns (mz_tables cat)
                              (mz_columns cat) object_name)
          | _ => ret rows
          end ;;
  ret (map MaterializeSchemaExtractor.column_of_row rows).

Fixpoint sinks_loop (cur : cursor) (sink_rows : list SinkRow)
         (sinks : list Sink) : M (list Sink) :=
  match sink_rows with
  | [] => ret sinks
  | row :: rest =>
      let sink_name := sr_name row in
      let create_sql := sr_create_sql row in
      let '(topic, source_object) :=
        MaterializeSchemaExtractor._parse_create_sink create_sql in
      match source_object with
      | Some so =>
          if PyStr.truthy so then
            columns <- _get_columns cur so ;;
            match columns with
            | [] =>
                logger WARNING
                  ("No columns found for sink '" ++ sink_name
                   ++ "' (source: " ++ so ++ ")") ;;;
                sinks_loop cur rest sinks
            | _ =>
                sinks_loop cur rest
                  (sinks ++ [mkSink sink_name topic so columns])%list
            end
          else
            logger WARNING
              ("Could not parse source object for sink '" ++ sink_name
               ++ "'") ;;;
            sinks_loop cur rest sinks
      | None =>
          logger WARNING
            ("Could not parse source object for sink '" ++ sink_name
             ++ "'") ;;;
          sinks_loop cur rest sinks
      end
  end.

Definition get_sinks (net : Network) (self : MaterializeSchemaExtractor.t)
           (sink_names : option (list string)) : M (list Sink) :=
  cur <- connect net self ;;
  Psycopg2.held_by_frame (cur_conn cur)
    (Psycopg2.with_connection (cur_conn cur)
       (fun _ =>
          sink_rows <- execute_fetchall cur
                         (SelectSinks
                            (MaterializeSchemaExtractor.name_filter
                               sink_names))
                         (fun cat =>
                            Sql.select_sinks cat
                              (MaterializeSchemaExtractor.name_filter
                                 sink_names)) ;;
          match sink_rows with
          | [] => logger WARNING "No Kafka sinks found" ;;; ret []
          | _ => sinks_loop cur sink_rows []
          end)).

(** A network whose servers never fail a statement. *)
Definition of_reliable (net : ConnectionParams -> string + Catalog) : Network :=
  fun params =>
    match net params with
    | inl msg => inl msg
    | inr cat => inr (reliable cat)
    end.

(** The sample catalog on a server that fails the sink query. *)
Definition sinks_query_fails : Network :=
  fun _ =>
    inr (mkServer Example.catalog
           (fun q => match q with
                     | SelectSinks _ => Some "relation does not exist"
                     | _ => None
                     end)).

End Unreliable.

(** * Properties *)

(** ** The monad and the world *)

Lemma logger_run (l : Level) (m : string) (w : World) :
  logger l m w = (inr tt, Spec.add_log w [mkLog l m]).
Proof. reflexivity. Qed.

(** ** Type Mapper *)

Lemma temporal_names_are_keys :
  Spec.temporal_names = Dict.keys TypeMapper.TEMPORAL_TYPES.
Proof. reflexivity. Qed.

Lemma map_type_run_temporal (s : string) (w : World) (b l : string) :
  Dict.get TypeMapper.TEMPORAL_TYPES (TypeMapper.normalize s) = Some (b, l) ->
  TypeMapper.map_type s w = (inr (b, Some l, Some [("version", JInt 1)]), w).
Proof.
  intros H. unfold TypeMapper.map_type. now rewrite H.
Qed.

Lemma map_type_run_basic (s : string) (w : World) (t : string) :
  Dict.get TypeMapper.TEMPORAL_TYPES (TypeMapper.normalize s) = None ->
  Dict.get TypeMapper.TYPE_MAP (TypeMapper.normalize s) = Some t ->
  TypeMapper.map_type s w = (inr (t, None, None), w).
Proof.
  intros H1 H2. unfold TypeMapper.map_type. now rewrite H1, H2.
Qed.

Lemma map_type_run_fallback (s : string) (w : World) :
  Dict.get TypeMapper.TEMPORAL_TYPES (TypeMapper.normalize s) = None ->
  Dict.get TypeMapper.TYPE_MAP (TypeMapper.normalize s) = None ->
  exists m, TypeMapper.map_type s w
            = (inr ("string", None, None), Spec.add_log w [mkLog WARNING m]).
Proof.
  intros H1 H2. unfold TypeMapper.map_type. rewrite H1, H2.
  destruct (PyStr.endswith _ _); [|destruct (PyStr.contains _ _)];
    eexists; reflexivity.
Qed.

(** Every temporal entry pairs a base type with a non-empty logical name. *)
Lemma temporal_entry (n b l : string) :
  Dict.get TypeMapper.TEMPORAL_TYPES n = Some (b, l) ->
  In n Spec.temporal_names /\ b = Spec.temporal_base n /\ l <> EmptyString.
Proof.
  unfold TypeMapper.TEMPORAL_TYPES, Dict.get.
  repeat match goal with
         | |- context [String.eqb ?a n] =>
             destruct (String.eqb_spec a n) as [<-|_]
         end;
    intros H; inversion H; subst;
    (split; [simpl; tauto | split; [reflexivity | discriminate]]).
Qed.

Lemma temporal_name_entry (n : string) :
  In n Spec.temporal_names ->
  exists l, Dict.get TypeMapper.TEMPORAL_TYPES n = Some (Spec.temporal_base n, l).
Proof.
  simpl. intros H.
  repeat (destruct H as [<-|H]; [eexists; reflexivity|]). contradiction.
Qed.

(** C2.  When the lower-cased, trimmed input is one of the seven temporal
    names, [map_type] returns [int64] for the timestamp variants and
    [int32] for the date and time variants, a non-empty logical type
    identifier and the extra properties [{version: 1}]; nothing is
    logged. *)
Theorem map_type_temporal (s : string) (w : World)
  (H : In (TypeMapper.normalize s) Spec.temporal_names) :
  exists logical,
    logical <> EmptyString
    /\ TypeMapper.map_type s w
       = (inr (Spec.temporal_base (TypeMapper.normalize s), Some logical,
               Some [("version", JInt 1)]), w).
Proof.
  destruct (temporal_name_entry _ H) as [l Hl].
  exists l. split.
  - now destruct (temporal_entry _ _ _ Hl) as (_ & _ & Hne).
  - now apply map_type_run_temporal.
Qed.

Lemma map_type_temporal_witness :
  exists logical,
    logical <> EmptyString
    /\ TypeMapper.map_type "  TimeStamp WITH Time Zone " initial_world
       = (inr ("int64", Some logical, Some [("version", JInt 1)]),
          initial_world).
Proof.
  apply (map_type_temporal "  TimeStamp WITH Time Zone " initial_world).
  vm_compute. tauto.
Defined.

(** C3.  [map_type] returns a result for every input string and never
    raises; when the normalized input is neither a temporal name nor a key
    of the basic table (array-suffixed, JSON-like and unknown types alike)
    the result is [string] with no logical name and no extra properties,
    and one warning is logged. *)
Theorem map_type_total (s : string) (w : World) :
  exists r w',
    TypeMapper.map_type s w = (inr r, w')
    /\ (Spec.is_temporal s = false -> Spec.is_basic s = false ->
        r = ("string", None, None)
        /\ exists m, w' = Spec.add_log w [mkLog WARNING m]).
Proof.
  unfold Spec.is_temporal, Spec.is_basic.
  destruct (Dict.get TypeMapper.TEMPORAL_TYPES (TypeMapper.normalize s))
    as [[b l]|] eqn:Ht.
  - do 2 eexists. split; [apply map_type_run_temporal; exact Ht|].
    unfold Dict.mem. rewrite Ht. discriminate.
  - destruct (Dict.get TypeMapper.TYPE_MAP (TypeMapper.normalize s))
      as [t|] eqn:Hb.
    + do 2 eexists. split; [apply map_type_run_basic; [exact Ht|exact Hb]|].
      unfold Dict.mem. rewrite Hb. discriminate.
    + destruct (map_type_run_fallback s w Ht Hb) as [m Hm].
      do 2 eexists. split; [exact Hm|]. intros _ _. split; eauto.
Qed.

Lemma map_type_total_witness :
  exists m,
    TypeMapper.map_type "INTEGER[]" initial_world
    = (inr ("string", None, None),
       Spec.add_log initial_world [mkLog WARNING m]).
Proof.
  destruct (map_type_total "INTEGER[]" initial_world) as (r & w' & Hr & Hf).
  destruct Hf as [-> [m ->]]; [reflexivity | reflexivity |].
  exists m. exact Hr.
Defined.

(** ** Schema Generator *)

Lemma truthy_nonempty (s : string) : s <> EmptyString -> PyStr.truthy s = true.
Proof. destruct s; [contradiction | reflexivity]. Qed.

(** One field: it succeeds, it describes its column and it keeps the
    field invariant. *)
Lemma field_of_run (c : Column) (w : World) :
  exists fd w',
    SchemaGenerator.field_of c w = (inr fd, w')
    /\ Spec.describes c fd /\ Spec.field_invariant c fd.
Proof.
  unfold SchemaGenerator.field_of, bind, Spec.describes, Spec.field_invariant,
    Spec.is_temporal, Dict.mem, Spec.target_type.
  destruct (Dict.get TypeMapper.TEMPORAL_TYPES
              (TypeMapper.normalize (col_type c))) as [[b l]|] eqn:Ht.
  - rewrite (map_type_run_temporal _ w _ _ Ht).
    destruct (temporal_entry _ _ _ Ht) as (_ & _ & Hne).
    rewrite (truthy_nonempty _ Hne). cbn.
    do 2 eexists. split; [reflexivity|].
    repeat split; try reflexivity.
    + exists b. split; [reflexivity|]. intros w0. do 3 eexists.
      apply map_type_run_temporal. exact Ht.
    + exists l. split; [exact Hne | reflexivity].
  - destruct (Dict.get TypeMapper.TYPE_MAP
                (TypeMapper.normalize (col_type c))) as [t|] eqn:Hb.
    + rewrite (map_type_run_basic _ w _ Ht Hb). cbn.
      do 2 eexists. split; [reflexivity|].
      repeat split; try reflexivity.
      exists t. split; [reflexivity|]. intros w0. do 3 eexists.
      apply map_type_run_basic; [exact Ht | exact Hb].
    + destruct (map_type_run_fallback _ w Ht Hb) as [m Hm].
      rewrite Hm. cbn.
      do 2 eexists. split; [reflexivity|].
      repeat split; try reflexivity.
      exists "string". split; [reflexivity|]. intros w0.
      destruct (map_type_run_fallback _ w0 Ht Hb) as [m0 Hm0].
      do 3 eexists. exact Hm0.
Qed.

Lemma fields_loop_run (cols : list Column) :
  forall (fields : list (Dict.t json)) (w : World),
    exists fds w',
      SchemaGenerator.fields_loop cols fields w = (inr (fields ++ fds)%list, w')
      /\ Forall2 Spec.describes cols fds
      /\ Forall2 Spec.field_invariant cols fds.
Proof.
  induction cols as [|c cols IH]; intros fields w; simpl.
  - exists [], w. rewrite app_nil_r. repeat split; constructor.
  - destruct (field_of_run c w) as (fd & w1 & Hfd & Hd & Hi).
    destruct (IH (fields ++ [fd])%list w1) as (fds & w2 & Hrun & Hds & His).
    exists (fd :: fds), w2. unfold bind. rewrite Hfd, Hrun.
    rewrite <- app_assoc. simpl.
    repeat split; constructor; assumption.
Qed.

Lemma generate_schema_run (self : SchemaGenerator.t) (sink : Sink) (w : World) :
  exists fields w',
    SchemaGenerator.generate_schema self sink w
    = (inr (Spec.schema_document
              (SchemaGenerator.schema_namespace self ++ "."
               ++ source_object sink) fields), w')
    /\ Forall2 Spec.describes (columns sink) fields
    /\ Forall2 Spec.field_invariant (columns sink) fields.
Proof.
  destruct (fields_loop_run (columns sink) [] w) as (fds & w' & Hrun & Hd & Hi).
  exists fds, w'. unfold SchemaGenerator.generate_schema, bind.
  rewrite Hrun. simpl. repeat split; assumption.
Qed.

(** C1.  For every sink [generate_schema] returns a document of type
    [struct], not optional, named [<namespace>.<source_object>] with the
    caller's namespace ([materialize] when none is given), whose fields
    are the columns one for one and in the same order: each field has the
    column's name, its nullability as [optional], and the Type Mapper's
    target type. *)
Theorem generate_schema_fields (ns : option string) (sink : Sink) (w : World) :
  exists fields w',
    SchemaGenerator.generate_schema (SchemaGenerator.init ns) sink w
    = (inr [ ("type", JStr "struct");
             ("fields", JList (map JDict fields));
             ("optional", JBool false);
             ("name", JStr (Spec.namespace_or_default ns ++ "."
                            ++ source_object sink)) ], w')
    /\ List.length fields = List.length (columns sink)
    /\ Forall2 Spec.describes (columns sink) fields
    /\ Spec.namespace_or_default None = "materialize".
Proof.
  destruct (generate_schema_run (SchemaGenerator.init ns) sink w)
    as (fields & w' & Hrun & Hd & _).
  exists fields, w'. split; [|split; [|split]].
  - rewrite Hrun. destruct ns; reflexivity.
  - symmetry. eapply Forall2_length. exact Hd.
  - exact Hd.
  - reflexivity.
Qed.

(** The code's table has exactly the seven temporal names as keys. *)
Lemma is_temporal_by_name (source_type : string) :
  Spec.is_temporal source_type = Spec.temporal_source source_type.
Proof.
  unfold Spec.is_temporal, Spec.temporal_source, Dict.mem.
  change (PyStr.strip (PyStr.lower source_type))
    with (TypeMapper.normalize source_type).
  destruct (Dict.get TypeMapper.TEMPORAL_TYPES
              (TypeMapper.normalize source_type)) as [[b l]|] eqn:Ht.
  - destruct (temporal_entry _ _ _ Ht) as (Hin & _ & _).
    symmetry. apply existsb_exists.
    exists (TypeMapper.normalize source_type).
    split; [exact Hin | apply String.eqb_refl].
  - destruct (existsb _ Spec.temporal_names) eqn:E; [|reflexivity].
    apply existsb_exists in E as (n & Hin & Heq).
    apply String.eqb_eq in Heq. subst n.
    destruct (temporal_name_entry _ Hin) as [l Hl]. congruence.
Qed.

(** C4.  In every field descriptor [generate_schema] produces, [optional]
    is the column's nullable flag, and the [name] key with its [version]
    is present exactly when the column's source type is temporal: when
    its lower-cased, trimmed name is [timestamp], [date] or [time], with
    or without the time zone wording. *)
Theorem generate_schema_invariant (self : SchemaGenerator.t) (sink : Sink)
        (w : World) :
  exists fields w',
    SchemaGenerator.generate_schema self sink w
    = (inr (Spec.schema_document
              (SchemaGenerator.schema_namespace self ++ "."
               ++ source_object sink) fields), w')
    /\ Forall2 Spec.field_invariant_by_name (columns sink) fields.
Proof.
  destruct (generate_schema_run self sink w) as (fields & w' & Hrun & _ & Hi).
  exists fields, w'. split; [exact Hrun|].
  eapply Forall2_impl; [|exact Hi].
  intros c fd [Ho Ht]. split; [exact Ho|].
  now rewrite <- is_temporal_by_name.
Qed.

Lemma generate_schema_invariant_witness :
  exists f1 f2 f3 w',
    SchemaGenerator.generate_schema (SchemaGenerator.init None)
      Spec.events_sink initial_world
    = (inr (Spec.schema_document "materialize.events" [f1; f2; f3]), w')
    /\ Dict.get f1 "optional" = Some (JBool false)
    /\ (exists lt, lt <> EmptyString /\ Dict.get f1 "name" = Some (JStr lt))
    /\ Dict.get f1 "version" = Some (JInt 1)
    /\ Dict.get f2 "optional" = Some (JBool true)
    /\ (exists lt, lt <> EmptyString /\ Dict.get f2 "name" = Some (JStr lt))
    /\ Dict.get f2 "version" = Some (JInt 1)
    /\ Dict.get f3 "optional" = Some (JBool true)
    /\ Dict.get f3 "name" = None
    /\ Dict.get f3 "version" = None.
Proof.
  destruct (generate_schema_invariant (SchemaGenerator.init None)
              Spec.events_sink initial_world)
    as (fields & w' & Hrun & Hall).
  inversion Hall as [|c1 f1 l1 r1 [Ho1 H1] Hall1]; subst.
  inversion Hall1 as [|c2 f2 l2 r2 [Ho2 H2] Hall2]; subst.
  inversion Hall2 as [|c3 f3 l3 r3 [Ho3 H3] Hall3]; subst.
  inversion Hall3; subst.
  change (Spec.temporal_source
            (col_type (mkColumn "at" "  TIMESTAMP With Time Zone " false 1)))
    with true in H1.
  change (Spec.temporal_source (col_type (mkColumn "day" "Date" true 2)))
    with true in H2.
  change (Spec.temporal_source (col_type (mkColumn "note" "text" true 3)))
    with false in H3.
  cbv iota in H1, H2, H3.
  destruct H1 as [Hn1 Hv1]. destruct H2 as [Hn2 Hv2]. destruct H3 as [Hn3 Hv3].
  exists f1, f2, f3, w'.
  split; [exact Hrun|]. repeat (split; [assumption|]). assumption.
Defined.

(** ** Output Formatter *)

Lemma output_topic_of_some (t suffix : string) (w : World) :
  OutputFormatter.output_topic_of (Some t) suffix w
  = (inr (t, Spec.derived_output_topic t suffix), w).
Proof. reflexivity. Qed.

Lemma properties_loop_run (suffix : string) (pairs : list (Sink * Dict.t json)) :
  forall (lines : list string) (w : World),
    Forall Spec.has_topic pairs ->
    OutputFormatter.properties_loop pairs suffix lines w
    = (inr (lines ++ flat_map (Spec.properties_block suffix) pairs)%list, w).
Proof.
  induction pairs as [|[[n [t|] so cols] schema] pairs IH]; intros lines w H.
  - simpl. now rewrite app_nil_r.
  - inversion H as [|? ? _ Hrest]; subst.
    cbn [OutputFormatter.properties_loop topic sink_name source_object].
    unfold bind. rewrite output_topic_of_some.
    rewrite (IH _ w Hrest). cbn [flat_map].
    now rewrite <- app_assoc.
  - inversion H as [|? ? Ht _]; subst. now elim Ht.
Qed.

Lemma json_loop_run (suffix : string) (pairs : list (Sink * Dict.t json)) :
  forall (output : Dict.t json) (w : World),
    Forall Spec.has_topic pairs ->
    OutputFormatter.json_loop pairs suffix output w
    = (inr (Spec.json_output suffix pairs output), w).
Proof.
  induction pairs as [|[[n [t|] so cols] schema] pairs IH]; intros output w H.
  - reflexivity.
  - inversion H as [|? ? _ Hrest]; subst.
    cbn [OutputFormatter.json_loop topic sink_name source_object].
    unfold bind. rewrite output_topic_of_some.
    now rewrite (IH _ w Hrest).
  - inversion H as [|? ? Ht _]; subst. now elim Ht.
Qed.

Lemma get_set_same {V} (d : Dict.t V) (k : string) (v : V) :
  Dict.get (Dict.set d k v) k = Some v.
Proof.
  induction d as [|[k' v'] d IH]; simpl.
  - now rewrite String.eqb_refl.
  - destruct (String.eqb k' k) eqn:E; simpl; now rewrite E.
Qed.

Lemma get_set_other {V} (d : Dict.t V) (k k' : string) (v : V) :
  k <> k' -> Dict.get (Dict.set d k v) k' = Dict.get d k'.
Proof.
  intros Hne. induction d as [|[k0 v0] d IH]; simpl.
  - destruct (String.eqb_spec k k'); [contradiction | reflexivity].
  - destruct (String.eqb_spec k0 k) as [->|Hk]; simpl.
    + destruct (String.eqb_spec k k'); [contradiction | reflexivity].
    + destruct (String.eqb_spec k0 k'); [reflexivity | exact IH].
Qed.

(** Every entry of the built dictionary was there before or is the entry
    of a pair with that sink name. *)
Lemma json_output_entries (suffix : string) (pairs : list (Sink * Dict.t json)) :
  forall (output : Dict.t json) (name : string) (entry : json),
    Dict.get (Spec.json_output suffix pairs output) name = Some entry ->
    Dict.get output name = Some entry
    \/ exists p, In p pairs /\ sink_name (fst p) = name
                 /\ entry = Spec.json_entry suffix p.
Proof.
  induction pairs as [|p pairs IH]; intros output name entry H; simpl in *.
  - now left.
  - destruct (IH _ _ _ H) as [Hold | (q & Hq & Hname & Hentry)].
    + destruct (String.eqb_spec (sink_name (fst p)) name) as [Heq|Hne].
      * subst name. rewrite get_set_same in Hold. inversion Hold; subst.
        right. exists p. auto.
      * rewrite (get_set_other _ _ _ _ Hne) in Hold. now left.
    + right. exists q. auto.
Qed.

Lemma json_output_keeps_keys (suffix : string) (pairs : list (Sink * Dict.t json)) :
  forall (output : Dict.t json) (name : string),
    Dict.mem output name = true ->
    Dict.mem (Spec.json_output suffix pairs output) name = true.
Proof.
  induction pairs as [|p pairs IH]; intros output name H; simpl.
  - exact H.
  - apply IH. unfold Dict.mem in *.
    destruct (String.eqb_spec (sink_name (fst p)) name) as [Heq|Hne].
    + subst name. now rewrite get_set_same.
    + now rewrite (get_set_other _ _ _ _ Hne).
Qed.

Lemma json_output_has_names (suffix : string) (pairs : list (Sink * Dict.t json)) :
  forall (output : Dict.t json) (p : Sink * Dict.t json),
    In p pairs ->
    Dict.mem (Spec.json_output suffix pairs output) (sink_name (fst p)) = true.
Proof.
  induction pairs as [|q pairs IH]; intros output p Hin; simpl in *.
  - contradiction.
  - destruct Hin as [->|Hin].
    + apply json_output_keeps_keys. unfold Dict.mem.
      now rewrite get_set_same.
    + now apply IH.
Qed.

(** C5.  For sinks that carry a topic name, both encodings derive the
    output topic of every (sink, schema) pair as the input topic with
    [-noschema] removed and the suffix appended: it is the third line of
    the pair's block in the properties text, and the [output_topic] of
    the entry stored under the sink's name in the JSON object.  With input
    topic [orders-noschema] and suffix [-withschema] the derived topic is
    [orders-withschema]. *)
Theorem output_topic_derivation (sinks : list Sink)
        (schemas : list (Dict.t json)) (suffix : string) (w : World)
        (H : Forall Spec.has_topic (combine sinks schemas)) :
  OutputFormatter.format_properties sinks schemas (Some suffix) w
  = (inr (PyStr.join nl
            (Spec.properties_header
             ++ flat_map (Spec.properties_block suffix)
                  (combine sinks schemas))%list), w)
  /\ (exists output,
        OutputFormatter.format_json sinks schemas (Some suffix) w
        = (inr (dumps_indent 0 (JDict output)), w)
        /\ (forall p, In p (combine sinks schemas) ->
                      Dict.mem output (sink_name (fst p)) = true)
        /\ (forall name entry,
               Dict.get output name = Some entry ->
               exists p, In p (combine sinks schemas)
                         /\ sink_name (fst p) = name
                         /\ entry = Spec.json_entry suffix p))
  /\ Spec.derived_output_topic "orders-noschema" "-withschema"
     = "orders-withschema".
Proof.
  split; [|split].
  - unfold OutputFormatter.format_properties, bind; simpl.
    now rewrite (properties_loop_run suffix _ _ w H).
  - exists (Spec.json_output suffix (combine sinks schemas) []).
    split; [|split].
    + unfold OutputFormatter.format_json, bind; simpl.
      now rewrite (json_loop_run suffix _ _ w H).
    + intros p Hp. now apply json_output_has_names.
    + intros name entry Hget.
      destruct (json_output_entries _ _ _ _ _ Hget) as [Hnil|Hp];
        [discriminate | exact Hp].
  - reflexivity.
Qed.

Lemma output_topic_derivation_witness :
  OutputFormatter.format_properties
    [mkSink "orders_sink" (Some "orders-noschema") "orders" []]
    [Spec.schema_document "materialize.orders" []]
    (Some "-withschema") initial_world
  = (inr (PyStr.join nl
            [ "# Generated schema configurations";
              "# Materialize JSON Schema Attacher";
              EmptyString;
              "# Sink: orders_sink (from orders)";
              "schema.topic.orders-noschema="
                ++ dumps_compact
                     (JDict (Spec.schema_document "materialize.orders" []));
              "output.topic.orders-noschema=orders-withschema";
              EmptyString ]), initial_world).
Proof.
  refine (proj1 (output_topic_derivation
                   [mkSink "orders_sink" (Some "orders-noschema") "orders" []]
                   [Spec.schema_document "materialize.orders" []]
                   "-withschema" initial_world _)).
  repeat constructor. discriminate.
Defined.

(** C6, at the failing input.  A sink without a topic makes both
    formatters raise [AttributeError] instead of returning text. *)
Theorem formatters_raise_without_topic (name so : string) (cols : list Column)
        (schema : Dict.t json) (suffix : option string) (w : World) :
  let sink := mkSink name None so cols in
  OutputFormatter.format_properties [sink] [schema] suffix w
  = (inl (AttributeError "'NoneType' object has no attribute 'replace'"), w)
  /\ OutputFormatter.format_json [sink] [schema] suffix w
     = (inl (AttributeError "'NoneType' object has no attribute 'replace'"), w).
Proof. split; reflexivity. Qed.

(** On sinks that all carry a topic both formatters return text and leave
    the world unchanged. *)
Lemma formatters_return_with_topics (sinks : list Sink)
      (schemas : list (Dict.t json)) (suffix : option string) (w : World) :
  Forall Spec.has_topic (combine sinks schemas) ->
  (exists text,
     OutputFormatter.format_properties sinks schemas suffix w = (inr text, w))
  /\ (exists text,
        OutputFormatter.format_json sinks schemas suffix w = (inr text, w)).
Proof.
  intros H. split.
  - unfold OutputFormatter.format_properties, bind; simpl.
    rewrite (properties_loop_run _ _ _ w H). eexists; reflexivity.
  - unfold OutputFormatter.format_json, bind; simpl.
    rewrite (json_loop_run _ _ _ w H). eexists; reflexivity.
Qed.

(** ** Pattern matching *)

Lemma greedy_inv {R} (c : ascii -> bool) (min : nat)
      (k : string -> string -> option R) (s : string) :
  forall (taken : string) (r : R),
    Re.greedy c min k taken s = Some r ->
    exists taken' rest,
      k taken' rest = Some r /\ (min <= String.length taken')%nat.
Proof.
  induction s as [|a s IH]; intros taken r H; simpl in H.
  - destruct (Nat.leb_spec min (String.length taken)); [eauto | discriminate].
  - assert (Hstop :
      (if (min <=? String.length taken)%nat then k taken (String a s) else None)
      = Some r ->
      exists taken' rest, k taken' rest = Some r
                          /\ (min <= String.length taken')%nat).
    { destruct (Nat.leb_spec min (String.length taken));
        [eauto | discriminate]. }
    destruct (c a); [|auto].
    destruct (Re.greedy c min k (taken ++ String a EmptyString) s) eqn:E.
    + inversion H; subst. eapply IH; eassumption.
    + auto.
Qed.

(** A successful match returns a non-empty group when the pattern has
    one, and passes the incoming group through otherwise. *)
Lemma match_here_group (p : Re.pattern) :
  forall (g : option string) (s : string) (r : option string),
    Spec.groups_take_one p = true ->
    Re.match_here p g s = Some r ->
    if Spec.has_group p
    then exists so, r = Some so /\ so <> EmptyString
    else r = g.
Proof.
  induction p as [|[c|c min grp] p IH]; intros g s r Hp H; simpl in *.
  - now inversion H.
  - destruct s as [|a s]; [discriminate|].
    destruct (c a); [|discriminate]. eapply IH; eassumption.
  - apply andb_true_iff in Hp as [Hmin Hp].
    apply greedy_inv in H as (taken & rest & Hk & Hlen).
    specialize (IH _ _ _ Hp Hk).
    destruct grp; simpl in *.
    + destruct (Spec.has_group p); [exact IH|].
      exists taken. split; [exact IH|].
      destruct min; [discriminate|].
      destruct taken; simpl in *; [lia|discriminate].
    + exact IH.
Qed.

Lemma search_inv (p : Re.pattern) (s : string) (r : option string) :
  Re.search p s = Some r -> exists s', Re.match_here p None s' = Some r.
Proof.
  induction s as [|a s IH]; simpl; intros H.
  - destruct (Re.match_here p None EmptyString) eqn:E; [|discriminate].
    inversion H; subst. eauto.
  - destruct (Re.match_here p None (String a s)) eqn:E.
    + inversion H; subst. eauto.
    + auto.
Qed.

(** The source object [_parse_create_sink] returns is never the empty
    string. *)
Lemma parsed_source_nonempty (sql so : string) :
  snd (MaterializeSchemaExtractor._parse_create_sink sql) = Some so ->
  so <> EmptyString.
Proof.
  unfold MaterializeSchemaExtractor._parse_create_sink; simpl.
  destruct (Re.search MaterializeSchemaExtractor.source_pattern sql)
    as [g|] eqn:E; simpl; [|discriminate].
  intros ->. apply search_inv in E as [s' E].
  apply match_here_group in E; [|reflexivity].
  change (Spec.has_group MaterializeSchemaExtractor.source_pattern)
    with true in E.
  destruct E as (so' & Heq & Hne). now inversion Heq; subst.
Qed.

Lemma parsed_source_eq (row : SinkRow) (so : string) :
  snd (MaterializeSchemaExtractor._parse_create_sink (sr_create_sql row))
  = Some so ->
  Spec.parsed_source row = Some so.
Proof.
  intros H. unfold Spec.parsed_source. rewrite H.
  now rewrite (truthy_nonempty _ (parsed_source_nonempty _ _ H)).
Qed.

(** ** Schema Extractor *)

Lemma set_nth_last (cs : list ConnStatus) (st x : ConnStatus) :
  Psycopg2.set_nth (List.length cs) st (cs ++ [x])%list = (cs ++ [st])%list.
Proof.
  induction cs as [|c cs IH]; simpl; [reflexivity | now rewrite IH].
Qed.

(** A skipped row: the warning goes to the log and the loop goes on with
    the same list. *)
Ltac skip_row IH :=
  unfold bind; rewrite logger_run; unfold Spec.add_log;
  cbn [log conns stdout stderr files]; rewrite IH;
  now rewrite <- app_assoc.

Section OpenConnection.

(** A connection in the last slot of [conns], reading [cat]. *)
Variable cat : Catalog.
Variable cs : list ConnStatus.
Let cur : connection := mkConn (List.length cs) cat.

Lemma execute_fetchall_run {R} (rows : Catalog -> list R) (st : ConnStatus)
      (lg : list LogRecord) (out err : list string) (fs : Dict.t string) :
  Psycopg2.execute_fetchall cur rows (mkWorld lg (cs ++ [st]) out err fs)
  = (inr (rows cat), mkWorld lg (cs ++ [ConnBegin]) out err fs).
Proof.
  unfold Psycopg2.execute_fetchall, Psycopg2.set_status, bind, get_conns,
    set_conns, ret; simpl.
  now rewrite set_nth_last.
Qed.

Lemma get_columns_run (name : string)
      (lg : list LogRecord) (out err : list string) (fs : Dict.t string) :
  MaterializeSchemaExtractor._get_columns cur name
    (mkWorld lg (cs ++ [ConnBegin]) out err fs)
  = (inr (Spec.columns_of cat name),
     mkWorld lg (cs ++ [ConnBegin]) out err fs).
Proof.
  unfold MaterializeSchemaExtractor._get_columns, bind, Spec.columns_of.
  rewrite execute_fetchall_run.
  destruct (Sql.select_columns (mz_materialized_views cat) (mz_columns cat)
              name) eqn:E.
  - now rewrite execute_fetchall_run.
  - reflexivity.
Qed.

(** The loop appends the sink of every row that resolves, in row order,
    and logs one warning for every row it skips. *)
Lemma sinks_loop_run (rows : list SinkRow) :
  forall (sinks : list Sink)
         (lg : list LogRecord) (out err : list string) (fs : Dict.t string),
    MaterializeSchemaExtractor.sinks_loop cur rows sinks
      (mkWorld lg (cs ++ [ConnBegin]) out err fs)
    = (inr (sinks ++ flat_map (Spec.sink_of_row cat) rows)%list,
       mkWorld (lg ++ flat_map (Spec.skip_warning cat) rows)
               (cs ++ [ConnBegin]) out err fs).
Proof.
  induction rows as [|row rows IH]; intros sinks lg out err fs.
  - simpl. now rewrite !app_nil_r.
  - cbn [MaterializeSchemaExtractor.sinks_loop flat_map].
    unfold Spec.sink_of_row at 1, Spec.skip_warning at 1,
      Spec.parsed_source, Spec.parsed_topic.
    destruct (MaterializeSchemaExtractor._parse_create_sink
                (sr_create_sql row)) as [tp [so|]];
      cbn [fst snd].
    + destruct (PyStr.truthy so).
      * unfold bind at 1. rewrite get_columns_run.
        destruct (Spec.columns_of cat so) as [|c cols].
        -- skip_row IH.
        -- rewrite IH. now rewrite <- app_assoc.
      * skip_row IH.
    + skip_row IH.
Qed.

End OpenConnection.

(** What the batch leaves in the log: the empty-result warning, or the
    warnings of the skipped rows. *)
Lemma get_sinks_run (net : Network) (self : MaterializeSchemaExtractor.t)
      (names : option (list string)) (cat : Catalog) (w : World) :
  net (MaterializeSchemaExtractor.connection_params self) = inr cat ->
  let rows :=
    Sql.select_sinks cat (MaterializeSchemaExtractor.name_filter names) in
  MaterializeSchemaExtractor.get_sinks net self names w
  = (inr (flat_map (Spec.sink_of_row cat) rows),
     mkWorld
       (log w ++ match rows with
                 | [] => [mkLog WARNING "No Kafka sinks found"]
                 | _ => flat_map (Spec.skip_warning cat) rows
                 end)
       (conns w ++ [ConnClosed]) (stdout w) (stderr w) (files w)).
Proof.
  intros Hnet rows. destruct w as [lg cs out err fs].
  unfold MaterializeSchemaExtractor.get_sinks,
    MaterializeSchemaExtractor.connect, Psycopg2.connect, try_except.
  rewrite Hnet.
  unfold bind at 1. cbn [bind get_conns set_conns ret conns log stdout stderr files].
  unfold Psycopg2.held_by_frame, Psycopg2.with_connection.
  unfold bind at 1. rewrite execute_fetchall_run. fold rows.
  destruct rows as [|row rest] eqn:Hrows.
  - unfold bind, logger, ret, Psycopg2.commit, Psycopg2.close,
      Psycopg2.set_status, bind, get_conns, set_conns.
    cbn [conns log stdout stderr files conn_id flat_map].
    now rewrite !set_nth_last.
  - rewrite sinks_loop_run.
    unfold bind, ret, Psycopg2.commit, Psycopg2.close, Psycopg2.set_status,
      bind, get_conns, set_conns.
    cbn [conns log stdout stderr files conn_id].
    now rewrite !set_nth_last.
Qed.

(** C7.  A row whose SQL gives no source object, or whose source object
    has no columns as a materialized view and as a table, is left out and
    a warning is logged for it; every other row of the batch still yields
    its sink, and the sinks come back in the order of the rows. *)
Theorem get_sinks_skips_unresolved (net : Network)
        (self : MaterializeSchemaExtractor.t) (names : option (list string))
        (cat : Catalog) (w : World)
        (Hnet : net (MaterializeSchemaExtractor.connection_params self)
                = inr cat) :
  let rows :=
    Sql.select_sinks cat (MaterializeSchemaExtractor.name_filter names) in
  exists sinks w',
    MaterializeSchemaExtractor.get_sinks net self names w = (inr sinks, w')
    /\ sinks = flat_map (Spec.sink_of_row cat) rows
    /\ (rows <> [] ->
        log w' = (log w ++ flat_map (Spec.skip_warning cat) rows)%list)
    /\ (forall row,
          Spec.parsed_source row = None
          \/ (exists so, Spec.parsed_source row = Some so
                         /\ Spec.columns_of cat so = []) ->
          Spec.sink_of_row cat row = []
          /\ exists m, Spec.skip_warning cat row = [mkLog WARNING m])
    /\ (forall row so,
          Spec.parsed_source row = Some so ->
          Spec.columns_of cat so <> [] ->
          Spec.sink_of_row cat row
          = [mkSink (sr_name row) (Spec.parsed_topic row) so
               (Spec.columns_of cat so)]
          /\ Spec.skip_warning cat row = []).
Proof.
  intros rows. pose proof (get_sinks_run net self names cat w Hnet) as Hrun.
  cbv zeta in Hrun. fold rows in Hrun.
  do 2 eexists. split; [exact Hrun|]. split; [reflexivity|].
  split; [|split].
  - intros Hne. cbn [log]. destruct rows; [contradiction | reflexivity].
  - intros row [Hnone | (so & Hso & Hcols)];
      unfold Spec.sink_of_row, Spec.skip_warning.
    + rewrite Hnone. split; [reflexivity | eexists; reflexivity].
    + rewrite Hso, Hcols. split; [reflexivity | eexists; reflexivity].
  - intros row so Hso Hcols. unfold Spec.sink_of_row, Spec.skip_warning.
    rewrite Hso. destruct (Spec.columns_of cat so); [contradiction|].
    split; reflexivity.
Qed.

Lemma get_sinks_skips_unresolved_witness :
  exists w',
    MaterializeSchemaExtractor.get_sinks (network Example.env)
      Example.extractor None initial_world
    = (inr [Example.users_sink; Example.orders_sink], w')
    /\ log w'
       = [ mkLog WARNING "Could not parse source object for sink 'broken_sink'";
           mkLog WARNING
             "No columns found for sink 'ghost_sink' (source: ghost)" ].
Proof.
  destruct (get_sinks_skips_unresolved (network Example.env) Example.extractor
              None Example.catalog initial_world eq_refl)
    as (sinks & w' & Hrun & Hsinks & Hlog & _).
  exists w'. split.
  - rewrite Hrun, Hsinks. reflexivity.
  - rewrite Hlog; [reflexivity | discriminate].
Defined.

(** C8.  When the sink query returns no rows, [get_sinks] returns the
    empty list after a warning and raises nothing, and the run ends with
    exit code 1 after an error-level message, with nothing written. *)
Theorem no_sinks_found (env : Env) (host : string) (port : Z) (user : string)
        (password : option string) (database : string) (args : Args)
        (cat : Catalog) (w : World)
        (Hnet : network env
                  (MaterializeSchemaExtractor.connection_params
                     (MaterializeSchemaExtractor.init host port user password
                        database)) = inr cat)
        (Hrows : Sql.select_sinks cat
                   (MaterializeSchemaExtractor.name_filter (arg_sinks args))
                 = []) :
  (exists w1,
     MaterializeSchemaExtractor.get_sinks (network env)
       (MaterializeSchemaExtractor.init host port user password database)
       (arg_sinks args) w = (inr [], w1)
     /\ log w1 = (log w ++ [mkLog WARNING "No Kafka sinks found"])%list)
  /\ (exists w2,
        main env host port user password database args w = (inr 1%Z, w2)
        /\ log w2
           = (log w
              ++ [ mkLog INFO ("Connecting to Materialize at " ++ host ++ ":"
                               ++ PyStr.of_Z port ++ "...");
                   mkLog INFO "Querying Kafka sinks...";
                   mkLog WARNING "No Kafka sinks found";
                   mkLog ERROR "No sinks found" ])%list
        /\ stdout w2 = stdout w /\ files w2 = files w).
Proof.
  split.
  - pose proof (get_sinks_run _ _ (arg_sinks args) cat w Hnet) as Hrun.
    cbv zeta in Hrun. rewrite Hrows in Hrun.
    eexists. split; [exact Hrun | reflexivity].
  - unfold main, try_except, bind. rewrite !logger_run.
    match goal with
    | |- context [MaterializeSchemaExtractor.get_sinks _ _ _ ?w0] =>
        pose proof (get_sinks_run _ _ (arg_sinks args) cat w0 Hnet) as Hrun
    end.
    cbv zeta in Hrun. rewrite Hrows in Hrun. rewrite Hrun.
    cbn [flat_map]. rewrite logger_run.
    eexists. split; [reflexivity|].
    unfold Spec.add_log; cbn [log stdout files].
    rewrite <- !app_assoc. repeat split.
Qed.

Lemma no_sinks_found_witness :
  exists w2,
    main Example.env "localhost" 6875 "materialize" None "materialize"
      (Example.args (Some ["missing_sink"])) initial_world = (inr 1%Z, w2)
    /\ log w2
       = [ mkLog INFO "Connecting to Materialize at localhost:6875...";
           mkLog INFO "Querying Kafka sinks...";
           mkLog WARNING "No Kafka sinks found";
           mkLog ERROR "No sinks found" ]
    /\ stdout w2 = [] /\ files w2 = [].
Proof.
  exact (proj2 (no_sinks_found Example.env "localhost" 6875 "materialize" None
                  "materialize" (Example.args (Some ["missing_sink"]))
                  Example.catalog initial_world eq_refl eq_refl)).
Defined.

(** Leaving the [with] block never closes the connection, whether the
    body returns or raises. *)
Lemma with_connection_leaves_open {A} (cat : Catalog) (cs : list ConnStatus)
      (body : connection -> M A) (w w1 : World) (r : exn + A)
      (st : ConnStatus) :
  body (mkConn (List.length cs) cat) w = (r, w1) ->
  conns w1 = (cs ++ [st])%list ->
  exists w',
    Psycopg2.with_connection (mkConn (List.length cs) cat) body w = (r, w')
    /\ conns w' = (cs ++ [ConnReady])%list.
Proof.
  intros Hbody Hconns. unfold Psycopg2.with_connection. rewrite Hbody.
  destruct r as [e|a];
    unfold bind, Psycopg2.commit, Psycopg2.rollback, Psycopg2.set_status,
      bind, get_conns, set_conns, ret, raise;
    cbn [conn_id]; rewrite Hconns, set_nth_last;
    eexists; split; reflexivity.
Qed.

(** C10.  A row whose SQL has a source object with columns but no topic
    clause the pattern matches is not skipped: the result contains its
    sink, with [None] as topic. *)
Theorem get_sinks_keeps_sink_without_topic (net : Network)
        (self : MaterializeSchemaExtractor.t) (names : option (list string))
        (cat : Catalog) (w : World) (row : SinkRow) (so : string)
        (Hnet : net (MaterializeSchemaExtractor.connection_params self)
                = inr cat)
        (Hrow : In row
                  (Sql.select_sinks cat
                     (MaterializeSchemaExtractor.name_filter names)))
        (Htopic : Re.search MaterializeSchemaExtractor.topic_pattern
                    (sr_create_sql row) = None)
        (Hsource : Re.search MaterializeSchemaExtractor.source_pattern
                     (sr_create_sql row) = Some (Some so))
        (Hcols : Spec.columns_of cat so <> []) :
  exists sinks w',
    MaterializeSchemaExtractor.get_sinks net self names w = (inr sinks, w')
    /\ In (mkSink (sr_name row) None so (Spec.columns_of cat so)) sinks.
Proof.
  pose proof (get_sinks_run net self names cat w Hnet) as Hrun.
  cbv zeta in Hrun. do 2 eexists. split; [exact Hrun|].
  apply in_flat_map. exists row. split; [exact Hrow|].
  assert (Hparse : MaterializeSchemaExtractor._parse_create_sink
                     (sr_create_sql row) = (None, Some so)).
  { unfold MaterializeSchemaExtractor._parse_create_sink.
    now rewrite Htopic, Hsource. }
  unfold Spec.sink_of_row, Spec.parsed_topic.
  rewrite (parsed_source_eq row so) by now rewrite Hparse.
  rewrite Hparse. cbn [fst].
  destruct (Spec.columns_of cat so); [contradiction | now left].
Qed.

Lemma get_sinks_keeps_sink_without_topic_witness :
  exists sinks w',
    MaterializeSchemaExtractor.get_sinks (network Example.env)
      Example.extractor None initial_world = (inr sinks, w')
    /\ In Example.orders_sink sinks.
Proof.
  refine (get_sinks_keeps_sink_without_topic (network Example.env)
            Example.extractor None Example.catalog initial_world
            (mkSinkRow "orders_sink" Example.orders_sql "kafka") "orders"
            eq_refl _ _ _ _).
  - vm_compute. tauto.
  - vm_compute. reflexivity.
  - vm_compute. reflexivity.
  - vm_compute. discriminate.
Defined.

(** The batch of the sample catalog contains a sink without a topic, and
    the run over it ends in the formatter's [AttributeError]: exit code 1
    and no output, also for the sink that was complete. *)
Lemma main_fails_on_sink_without_topic :
  exists w',
    main Example.env "localhost" 6875 "materialize" None "materialize"
      (Example.args None) initial_world = (inr 1%Z, w')
    /\ In (mkLog ERROR "Error: 'NoneType' object has no attribute 'replace'")
          (log w')
    /\ stdout w' = [] /\ files w' = [].
Proof.
  eexists. split; [vm_compute; reflexivity|].
  split; [|split]; [|reflexivity|reflexivity].
  cbn [log]. repeat (try (left; reflexivity); right).
Qed.

(** ** Column order *)

Lemma insert_by_position_Forall (P : ColumnRow -> Prop) (r : ColumnRow)
      (l : list ColumnRow) :
  P r -> Forall P l -> Forall P (Sql.insert_by_position r l).
Proof.
  intros Hr Hl. induction Hl as [|x l Hx Hl IH]; simpl.
  - now constructor.
  - destruct (cr_position r <? cr_position x)%Z; repeat constructor; auto.
Qed.

Lemma order_by_position_sorted (l : list ColumnRow) :
  StronglySorted (fun a b => (cr_position a <= cr_position b)%Z)
    (Sql.order_by_position l).
Proof.
  induction l as [|r l IH]; simpl; [constructor|].
  induction IH as [|x s Hs IHs Hx]; simpl.
  - repeat constructor.
  - destruct (Z.ltb_spec (cr_position r) (cr_position x)).
    + constructor; [now constructor|].
      constructor; [lia|].
      eapply Forall_impl; [|exact Hx]. simpl; intros; lia.
    + constructor; [exact IHs|].
      apply insert_by_position_Forall; [lia | exact Hx].
Qed.

(** The columns [get_sinks] stores in a sink ascend by position. *)
Lemma columns_of_sorted (cat : Catalog) (name : string) :
  Spec.sorted_by_position (Spec.columns_of cat name).
Proof.
  unfold Spec.sorted_by_position, Spec.columns_of.
  assert (Hmap : forall rows,
             StronglySorted
               (fun a b => (cr_position a <= cr_position b)%Z) rows ->
             StronglySorted
               (fun a b => (col_position a <= col_position b)%Z)
               (map MaterializeSchemaExtractor.column_of_row rows)).
  { induction 1 as [|x s Hs IHs Hx]; simpl; constructor; [exact IHs|].
    apply Forall_map. exact Hx. }
  apply Hmap.
  destruct (Sql.select_columns (mz_materialized_views cat) (mz_columns cat)
              name) eqn:E.
  - apply order_by_position_sorted.
  - rewrite <- E. apply order_by_position_sorted.
Qed.

(** ** The three-column scenario *)

(** A sink over [id bigint not null], [email text] and
    [created_at timestamp not null] yields the three documented fields,
    and nothing is logged. *)
Example users_schema :
  SchemaGenerator.generate_schema (SchemaGenerator.init None)
    Example.users_sink initial_world
  = (inr (Spec.schema_document "materialize.users_processed"
            [ [ ("type", JStr "int64"); ("optional", JBool false);
                ("field", JStr "id") ];
              [ ("type", JStr "string"); ("optional", JBool true);
                ("field", JStr "email") ];
              [ ("type", JStr "int64"); ("optional", JBool false);
                ("field", JStr "created_at");
                ("name", JStr "org.apache.kafka.connect.data.Timestamp");
                ("version", JInt 1) ] ]), initial_world).
Proof. reflexivity. Qed.

(** * Further properties of the code *)

(** ** Type Mapper: tables and normalization *)

Lemma add_log_nil (w : World) : Spec.add_log w [] = w.
Proof.
  destruct w; unfold Spec.add_log; simpl. now rewrite app_nil_r.
Qed.

Lemma add_log_app (w : World) (l1 l2 : list LogRecord) :
  Spec.add_log (Spec.add_log w l1) l2 = Spec.add_log w (l1 ++ l2)%list.
Proof.
  unfold Spec.add_log; simpl. now rewrite app_assoc.
Qed.

(** Every basic entry is a field type, and no basic name is a temporal
    name. *)
Lemma basic_entry (n t : string) :
  Dict.get TypeMapper.TYPE_MAP n = Some t ->
  In t Pure.field_types /\ Dict.get TypeMapper.TEMPORAL_TYPES n = None.
Proof.
  unfold TypeMapper.TYPE_MAP, Dict.get at 1.
  repeat match goal with
         | |- context [String.eqb ?a n] =>
             destruct (String.eqb_spec a n) as [<-|_]
         end;
    intros H; inversion H; subst;
    (split; [simpl; tauto | reflexivity]).
Qed.

(** [map_type] as a value and a list of log records. *)
Lemma map_type_pure (s : string) (w : World) :
  TypeMapper.map_type s w
  = (inr (Pure.mapping_of (TypeMapper.normalize s)),
     Spec.add_log w (Pure.warnings_of s)).
Proof.
  unfold TypeMapper.map_type, Pure.mapping_of, Pure.warnings_of,
    Pure.unmapped, Spec.is_temporal, Spec.is_basic, Dict.mem.
  destruct (Dict.get TypeMapper.TEMPORAL_TYPES (TypeMapper.normalize s))
    as [[b l]|]; cbn [negb andb].
  - now rewrite add_log_nil.
  - destruct (Dict.get TypeMapper.TYPE_MAP (TypeMapper.normalize s));
      cbn [negb andb].
    + now rewrite add_log_nil.
    + destruct (PyStr.endswith _ _); [|destruct (PyStr.contains _ _)];
        reflexivity.
Qed.

(** X1.  Whatever the input, the target type [map_type] returns is one
    of the eight field types. *)
Theorem map_type_in_field_types (s : string) (w : World) :
  exists ty lt props w',
    TypeMapper.map_type s w = (inr (ty, lt, props), w')
    /\ In ty Pure.field_types.
Proof.
  rewrite map_type_pure. unfold Pure.mapping_of.
  destruct (Dict.get TypeMapper.TEMPORAL_TYPES (TypeMapper.normalize s))
    as [[b l]|] eqn:Ht.
  - do 4 eexists. split; [reflexivity|].
    destruct (temporal_entry _ _ _ Ht) as (_ & -> & _).
    unfold Spec.temporal_base.
    destruct (existsb _ _); simpl; tauto.
  - destruct (Dict.get TypeMapper.TYPE_MAP (TypeMapper.normalize s))
      as [t|] eqn:Hb.
    + do 4 eexists. split; [reflexivity|].
      now destruct (basic_entry _ _ Hb).
    + do 4 eexists. split; [reflexivity|]. simpl; tauto.
Qed.

(** X2.  A name of the basic table, in any case and with any surrounding
    whitespace, maps to its table entry with no logical type and no extra
    properties, and nothing is logged: the temporal check that runs first
    shadows no basic name. *)
Theorem map_type_basic (s t : string) (w : World)
  (H : Dict.get TypeMapper.TYPE_MAP (TypeMapper.normalize s) = Some t) :
  TypeMapper.map_type s w = (inr (t, None, None), w).
Proof.
  destruct (basic_entry _ _ H) as [_ Ht].
  now apply map_type_run_basic.
Qed.

Lemma map_type_basic_witness :
  TypeMapper.map_type " Double Precision " initial_world
  = (inr ("float64", None, None), initial_world).
Proof.
  apply (map_type_basic " Double Precision " "float64" initial_world).
  reflexivity.
Defined.

Lemma lower_char_idem (a : ascii) :
  PyStr.lower_char (PyStr.lower_char a) = PyStr.lower_char a.
Proof. destruct a as [[] [] [] [] [] [] [] []]; reflexivity. Qed.

Lemma isspace_lower_char (a : ascii) :
  PyStr.isspace (PyStr.lower_char a) = PyStr.isspace a.
Proof. destruct a as [[] [] [] [] [] [] [] []]; reflexivity. Qed.

Lemma lower_idem (s : string) : PyStr.lower (PyStr.lower s) = PyStr.lower s.
Proof.
  induction s as [|a s IH]; simpl; [reflexivity|].
  now rewrite lower_char_idem, IH.
Qed.

Lemma lower_lstrip (s : string) :
  PyStr.lower (PyStr.lstrip s) = PyStr.lstrip (PyStr.lower s).
Proof.
  induction s as [|a s IH]; simpl; [reflexivity|].
  rewrite isspace_lower_char. destruct (PyStr.isspace a); [exact IH | reflexivity].
Qed.

Lemma lower_rstrip (s : string) :
  PyStr.lower (PyStr.rstrip s) = PyStr.rstrip (PyStr.lower s).
Proof.
  induction s as [|a s IH]; simpl; [reflexivity|].
  rewrite <- IH, isspace_lower_char.
  destruct (PyStr.rstrip s); simpl; [destruct (PyStr.isspace a)|]; reflexivity.
Qed.

Lemma lower_strip (s : string) :
  PyStr.lower (PyStr.strip s) = PyStr.strip (PyStr.lower s).
Proof.
  unfold PyStr.strip. now rewrite lower_rstrip, lower_lstrip.
Qed.

Lemma rstrip_idem (s : string) : PyStr.rstrip (PyStr.rstrip s) = PyStr.rstrip s.
Proof.
  induction s as [|a s IH]; simpl; [reflexivity|].
  destruct (PyStr.rstrip s) as [|b r] eqn:E.
  - destruct (PyStr.isspace a) eqn:Ea; simpl; [reflexivity | now rewrite Ea].
  - change (PyStr.rstrip (String a (String b r)))
      with (match PyStr.rstrip (String b r) with
            | EmptyString =>
                if PyStr.isspace a then EmptyString else String a EmptyString
            | x => String a x
            end).
    now rewrite IH.
Qed.

(** A string that does not start with whitespace keeps its first
    character under [rstrip]. *)
Lemma lstrip_rstrip (s : string) :
  PyStr.lstrip s = s -> PyStr.lstrip (PyStr.rstrip s) = PyStr.rstrip s.
Proof.
  destruct s as [|a s]; [reflexivity|]. simpl.
  destruct (PyStr.isspace a) eqn:Ea.
  - intros H. exfalso.
    assert (Hlen : forall t, String.length (PyStr.lstrip t) <= String.length t).
    { induction t as [|b t IHt]; simpl; [lia|].
      destruct (PyStr.isspace b); simpl; lia. }
    specialize (Hlen s). rewrite H in Hlen. simpl in Hlen. lia.
  - intros _. destruct (PyStr.rstrip s); simpl; now rewrite Ea.
Qed.

Lemma lstrip_idem (s : string) : PyStr.lstrip (PyStr.lstrip s) = PyStr.lstrip s.
Proof.
  induction s as [|a s IH]; simpl; [reflexivity|].
  destruct (PyStr.isspace a) eqn:Ea; [exact IH | simpl; now rewrite Ea].
Qed.

Lemma strip_idem (s : string) : PyStr.strip (PyStr.strip s) = PyStr.strip s.
Proof.
  unfold PyStr.strip.
  rewrite (lstrip_rstrip _ (lstrip_idem s)). apply rstrip_idem.
Qed.

Lemma normalize_idem (s : string) :
  TypeMapper.normalize (TypeMapper.normalize s) = TypeMapper.normalize s.
Proof.
  unfold TypeMapper.normalize.
  now rewrite lower_strip, strip_idem, lower_idem.
Qed.

(** X3.  The mapping depends on the type name only up to case and
    surrounding whitespace: the lower-cased, the trimmed and the
    normalized name all get the mapping of the name itself, in any state
    of the log. *)
Theorem map_type_normalization (s : string) (w w' : World) :
  fst (TypeMapper.map_type (PyStr.lower s) w') = fst (TypeMapper.map_type s w)
  /\ fst (TypeMapper.map_type (PyStr.strip s) w')
     = fst (TypeMapper.map_type s w)
  /\ fst (TypeMapper.map_type (TypeMapper.normalize s) w')
     = fst (TypeMapper.map_type s w).
Proof.
  rewrite !map_type_pure. cbn [fst].
  rewrite normalize_idem.
  unfold TypeMapper.normalize.
  rewrite lower_idem, lower_strip, strip_idem.
  repeat split.
Qed.

(** ** Schema Generator: values and warnings *)

Lemma field_of_pure (c : Column) (w : World) :
  SchemaGenerator.field_of c w
  = (inr (Pure.field_of c), Spec.add_log w (Pure.warnings_of (col_type c))).
Proof.
  unfold SchemaGenerator.field_of, bind. rewrite map_type_pure.
  unfold Pure.field_of, Pure.mapping_of.
  destruct (Dict.get TypeMapper.TEMPORAL_TYPES
              (TypeMapper.normalize (col_type c))) as [[b l]|] eqn:Ht.
  - destruct (temporal_entry _ _ _ Ht) as (_ & _ & Hne).
    rewrite (truthy_nonempty _ Hne). reflexivity.
  - destruct (Dict.get TypeMapper.TYPE_MAP
                (TypeMapper.normalize (col_type c))); reflexivity.
Qed.

Lemma fields_loop_pure (cols : list Column) :
  forall (fields : list (Dict.t json)) (w : World),
    SchemaGenerator.fields_loop cols fields w
    = (inr (fields ++ map Pure.field_of cols)%list,
       Spec.add_log w (Pure.column_warnings cols)).
Proof.
  induction cols as [|c cols IH]; intros fields w; simpl.
  - now rewrite app_nil_r, add_log_nil.
  - unfold bind. rewrite field_of_pure, IH, add_log_app.
    now rewrite <- app_assoc.
Qed.

Lemma generate_schema_pure (self : SchemaGenerator.t) (sink : Sink) (w : World) :
  SchemaGenerator.generate_schema self sink w
  = (inr (Pure.schema_of (SchemaGenerator.schema_namespace self) sink),
     Spec.add_log w (Pure.column_warnings (columns sink))).
Proof.
  unfold SchemaGenerator.generate_schema, bind.
  now rewrite fields_loop_pure.
Qed.

Lemma warnings_of_shape (s : string) :
  List.length (Pure.warnings_of s) = (if Pure.unmapped s then 1 else 0)
  /\ Forall (fun r => level r = WARNING) (Pure.warnings_of s).
Proof.
  unfold Pure.warnings_of. destruct (Pure.unmapped s).
  - destruct (PyStr.endswith _ _); [|destruct (PyStr.contains _ _)];
      split; try reflexivity; repeat constructor.
  - split; [reflexivity | constructor].
Qed.

Lemma column_warnings_shape (cols : list Column) :
  List.length (Pure.column_warnings cols)
  = List.length (filter (fun c => Pure.unmapped (col_type c)) cols)
  /\ Forall (fun r => level r = WARNING) (Pure.column_warnings cols).
Proof.
  induction cols as [|c cols [IHl IHf]]; simpl; [split; [reflexivity|constructor]|].
  destruct (warnings_of_shape (col_type c)) as [Hl Hf].
  split.
  - rewrite length_app, Hl, IHl.
    destruct (Pure.unmapped (col_type c)); reflexivity.
  - apply Forall_app. split; assumption.
Qed.

(** X4.  [generate_schema] never raises and only appends to the log: one
    warning for every column whose type is in neither table, and nothing
    for the others.  Connections, outputs and files stay as they were. *)
Theorem generate_schema_warnings (self : SchemaGenerator.t) (sink : Sink)
        (w : World) :
  exists doc msgs,
    SchemaGenerator.generate_schema self sink w
    = (inr doc, mkWorld (log w ++ msgs) (conns w) (stdout w) (stderr w)
                        (files w))
    /\ List.length msgs
       = List.length
           (filter (fun c => Pure.unmapped (col_type c)) (columns sink))
    /\ Forall (fun r => level r = WARNING) msgs.
Proof.
  do 2 eexists. split; [apply generate_schema_pure|].
  apply column_warnings_shape.
Qed.

Lemma field_of_keys (c : Column) :
  Dict.keys (Pure.field_of c) = Pure.field_keys c.
Proof.
  unfold Pure.field_of, Pure.field_keys, Pure.mapping_of, Spec.is_temporal,
    Dict.mem.
  destruct (Dict.get TypeMapper.TEMPORAL_TYPES
              (TypeMapper.normalize (col_type c))) as [[b l]|];
    [reflexivity|].
  destruct (Dict.get TypeMapper.TYPE_MAP (TypeMapper.normalize (col_type c)));
    reflexivity.
Qed.

(** X5.  The keys of the document are [type], [fields], [optional],
    [name] in this order, and the keys of every field are [type],
    [optional], [field], followed by [name], [version] for a temporal
    column: no other key is ever written, and the extra properties add
    their key at the end. *)
Theorem generate_schema_keys (self : SchemaGenerator.t) (sink : Sink)
        (w : World) :
  exists fields w',
    SchemaGenerator.generate_schema self sink w
    = (inr (Spec.schema_document
              (SchemaGenerator.schema_namespace self ++ "."
               ++ source_object sink) fields), w')
    /\ Dict.keys (Spec.schema_document
                    (SchemaGenerator.schema_namespace self ++ "."
                     ++ source_object sink) fields)
       = [ "type"; "fields"; "optional"; "name" ]
    /\ map (@Dict.keys json) fields = map Pure.field_keys (columns sink).
Proof.
  do 2 eexists. split; [apply generate_schema_pure|].
  split; [reflexivity|].
  rewrite map_map. apply map_ext. exact field_of_keys.
Qed.

(** ** Output Formatter: errors, truncation, repeated names *)

Lemma all_topics_Forall (pairs : list (Sink * Dict.t json)) :
  Pure.all_topics pairs = true <-> Forall Spec.has_topic pairs.
Proof.
  unfold Pure.all_topics. rewrite forallb_forall, Forall_forall.
  unfold Spec.has_topic.
  split; intros H p Hp; specialize (H p Hp);
    destruct (topic (fst p)); congruence.
Qed.

Lemma properties_loop_raises (suffix : string)
      (pairs : list (Sink * Dict.t json)) :
  forall (lines : list string) (w : World),
    Pure.all_topics pairs = false ->
    OutputFormatter.properties_loop pairs suffix lines w
    = (inl Pure.missing_topic, w).
Proof.
  induction pairs as [|[[n [t|] so cols] schema] pairs IH]; intros lines w H.
  - discriminate.
  - cbn [OutputFormatter.properties_loop topic].
    unfold bind. rewrite output_topic_of_some. apply IH. exact H.
  - reflexivity.
Qed.

Lemma json_loop_raises (suffix : string) (pairs : list (Sink * Dict.t json)) :
  forall (output : Dict.t json) (w : World),
    Pure.all_topics pairs = false ->
    OutputFormatter.json_loop pairs suffix output w
    = (inl Pure.missing_topic, w).
Proof.
  induction pairs as [|[[n [t|] so cols] schema] pairs IH]; intros output w H.
  - discriminate.
  - cbn [OutputFormatter.json_loop topic].
    unfold bind. rewrite output_topic_of_some. apply IH. exact H.
  - reflexivity.
Qed.

Lemma format_properties_pure (sinks : list Sink) (schemas : list (Dict.t json))
      (suffix : option string) (w : World) :
  OutputFormatter.format_properties sinks schemas suffix w
  = (if Pure.all_topics (combine sinks schemas)
     then inr (PyStr.join nl
                 (Spec.properties_header
                  ++ flat_map
                       (Spec.properties_block
                          (OutputFormatter.suffix_or_default suffix))
                       (combine sinks schemas))%list)
     else inl Pure.missing_topic, w).
Proof.
  unfold OutputFormatter.format_properties, bind.
  destruct (Pure.all_topics (combine sinks schemas)) eqn:E.
  - apply all_topics_Forall in E. now rewrite (properties_loop_run _ _ _ w E).
  - now rewrite (properties_loop_raises _ _ _ w E).
Qed.

Lemma format_json_pure (sinks : list Sink) (schemas : list (Dict.t json))
      (suffix : option string) (w : World) :
  OutputFormatter.format_json sinks schemas suffix w
  = (if Pure.all_topics (combine sinks schemas)
     then inr (dumps_indent 0
                 (JDict (Spec.json_output
                           (OutputFormatter.suffix_or_default suffix)
                           (combine sinks schemas) [])))
     else inl Pure.missing_topic, w).
Proof.
  unfold OutputFormatter.format_json, bind.
  destruct (Pure.all_topics (combine sinks schemas)) eqn:E.
  - apply all_topics_Forall in E. now rewrite (json_loop_run _ _ _ w E).
  - now rewrite (json_loop_raises _ _ _ w E).
Qed.

(** X6.  Either formatter raises [AttributeError] exactly when one of the
    pairs it iterates has a sink without topic, whatever the other pairs
    are, and returns text otherwise; in both cases it leaves the log, the
    connections and the outputs untouched. *)
Theorem formatters_raise_iff_topic_missing (sinks : list Sink)
        (schemas : list (Dict.t json)) (suffix : option string) (w : World) :
  (exists r, OutputFormatter.format_properties sinks schemas suffix w = (r, w)
             /\ (r = inl Pure.missing_topic
                 <-> Pure.all_topics (combine sinks schemas) = false)
             /\ ((exists text, r = inr text)
                 <-> Pure.all_topics (combine sinks schemas) = true))
  /\ (exists r, OutputFormatter.format_json sinks schemas suffix w = (r, w)
                /\ (r = inl Pure.missing_topic
                    <-> Pure.all_topics (combine sinks schemas) = false)
                /\ ((exists text, r = inr text)
                    <-> Pure.all_topics (combine sinks schemas) = true)).
Proof.
  rewrite format_properties_pure, format_json_pure.
  destruct (Pure.all_topics (combine sinks schemas)); split;
    eexists; (split; [reflexivity|]);
    (split; split; intros H; try reflexivity; try discriminate;
     try (destruct H; discriminate); eauto).
Qed.

Lemma combine_min {A B} (l : list A) (l' : list B) :
  combine (firstn (Nat.min (List.length l) (List.length l')) l)
          (firstn (Nat.min (List.length l) (List.length l')) l')
  = combine l l'.
Proof.
  rewrite <- combine_firstn. apply firstn_all2.
  rewrite length_combine. lia.
Qed.

(** X7.  When the two lists differ in length the surplus of the longer
    one is ignored without any error: both formatters give what they give
    on the two lists cut to the shorter length. *)
Theorem formatters_truncate (sinks : list Sink) (schemas : list (Dict.t json))
        (suffix : option string) (w : World) :
  let n := Nat.min (List.length sinks) (List.length schemas) in
  OutputFormatter.format_properties sinks schemas suffix w
  = OutputFormatter.format_properties (firstn n sinks) (firstn n schemas)
      suffix w
  /\ OutputFormatter.format_json sinks schemas suffix w
     = OutputFormatter.format_json (firstn n sinks) (firstn n schemas)
         suffix w.
Proof.
  intros n. unfold OutputFormatter.format_properties,
    OutputFormatter.format_json. subst n.
  now rewrite combine_min.
Qed.

Lemma mem_keys {V} (d : Dict.t V) (k : string) :
  Dict.mem d k = true <-> In k (Dict.keys d).
Proof.
  unfold Dict.mem, Dict.keys.
  induction d as [|[k' v] d IH]; simpl.
  - split; [discriminate | contradiction].
  - destruct (String.eqb_spec k' k) as [->|Hne].
    + split; auto.
    + rewrite IH. split; [auto | intros [H|H]; [contradiction | exact H]].
Qed.

Lemma keys_set {V} (d : Dict.t V) (k : string) (v : V) :
  Dict.keys (Dict.set d k v)
  = if Dict.mem d k then Dict.keys d else (Dict.keys d ++ [k])%list.
Proof.
  unfold Dict.mem, Dict.keys.
  induction d as [|[k' v'] d IH]; simpl; [reflexivity|].
  destruct (String.eqb_spec k' k) as [->|Hne]; simpl; [reflexivity|].
  rewrite IH. now destruct (Dict.get d k).
Qed.

Lemma set_keeps_NoDup {V} (d : Dict.t V) (k : string) (v : V) :
  NoDup (Dict.keys d) -> NoDup (Dict.keys (Dict.set d k v)).
Proof.
  intros H. rewrite keys_set. destruct (Dict.mem d k) eqn:E; [exact H|].
  apply NoDup_app; [exact H | repeat constructor; intros [] | ].
  intros x Hx [<-|[]]. apply mem_keys in Hx. congruence.
Qed.

Lemma json_output_NoDup (suffix : string) (pairs : list (Sink * Dict.t json)) :
  forall output : Dict.t json,
    NoDup (Dict.keys output) ->
    NoDup (Dict.keys (Spec.json_output suffix pairs output)).
Proof.
  induction pairs as [|p pairs IH]; intros output H; simpl; [exact H|].
  apply IH. now apply set_keeps_NoDup.
Qed.

Lemma json_output_keys (suffix : string) (pairs : list (Sink * Dict.t json)) :
  forall (output : Dict.t json) (n : string),
    In n (Dict.keys (Spec.json_output suffix pairs output))
    <-> In n (Dict.keys output) \/ In n (Pure.sink_names pairs).
Proof.
  induction pairs as [|p pairs IH]; intros output n; simpl.
  - tauto.
  - rewrite IH, keys_set.
    destruct (Dict.mem output (sink_name (fst p))) eqn:E.
    + apply mem_keys in E. split; [tauto|].
      intros [H|[<-|H]]; tauto.
    + rewrite in_app_iff. simpl. tauto.
Qed.

Lemma json_output_untouched (suffix : string)
      (pairs : list (Sink * Dict.t json)) :
  forall (output : Dict.t json) (n : string),
    ~ In n (Pure.sink_names pairs) ->
    Dict.get (Spec.json_output suffix pairs output) n = Dict.get output n.
Proof.
  induction pairs as [|p pairs IH]; intros output n Hn; simpl in *.
  - reflexivity.
  - rewrite IH by tauto. apply get_set_other. tauto.
Qed.

Lemma json_output_last (suffix : string) (l1 l2 : list (Sink * Dict.t json))
      (p : Sink * Dict.t json) (output : Dict.t json) :
  ~ In (sink_name (fst p)) (Pure.sink_names l2) ->
  Dict.get (Spec.json_output suffix (l1 ++ p :: l2) output) (sink_name (fst p))
  = Some (Spec.json_entry suffix p).
Proof.
  intros Hn. unfold Spec.json_output. rewrite fold_left_app. simpl.
  fold (Spec.json_output suffix l1 output).
  match goal with
  | |- Dict.get (fold_left _ l2 ?o) _ = _ =>
      change (Dict.get (Spec.json_output suffix l2 o) (sink_name (fst p))
              = Some (Spec.json_entry suffix p))
  end.
  rewrite json_output_untouched by exact Hn. apply get_set_same.
Qed.

(** X8.  When every sink has a topic, the JSON object has exactly one
    key per distinct sink name, and for a name that occurs several times
    the entry of its last pair is the one kept: earlier sinks of the same
    name are lost without any warning. *)
Theorem format_json_repeated_names (sinks : list Sink)
        (schemas : list (Dict.t json)) (suffix : string) (w : World)
        (H : Pure.all_topics (combine sinks schemas) = true) :
  exists output,
    OutputFormatter.format_json sinks schemas (Some suffix) w
    = (inr (dumps_indent 0 (JDict output)), w)
    /\ NoDup (Dict.keys output)
    /\ (forall n, In n (Dict.keys output)
                  <-> In n (Pure.sink_names (combine sinks schemas)))
    /\ (forall l1 p l2,
           combine sinks schemas = (l1 ++ p :: l2)%list ->
           ~ In (sink_name (fst p)) (Pure.sink_names l2) ->
           Dict.get output (sink_name (fst p))
           = Some (Spec.json_entry suffix p)).
Proof.
  rewrite format_json_pure, H. eexists. split; [reflexivity|].
  cbn [OutputFormatter.suffix_or_default]. split; [|split].
  - apply json_output_NoDup. constructor.
  - intros n. rewrite json_output_keys. simpl. tauto.
  - intros l1 p l2 -> Hn. now apply json_output_last.
Qed.

Lemma format_json_repeated_names_witness :
  exists output,
    OutputFormatter.format_json
      [ mkSink "s" (Some "old-noschema") "a" [];
        mkSink "s" (Some "new-noschema") "b" [] ]
      [ []; [] ] (Some "-withschema") initial_world
    = (inr (dumps_indent 0 (JDict output)), initial_world)
    /\ NoDup (Dict.keys output)
    /\ Dict.get output "s"
       = Some (JDict [ ("input_topic", JStr "new-noschema");
                       ("output_topic", JStr "new-withschema");
                       ("source_object", JStr "b");
                       ("schema", JDict []) ]).
Proof.
  destruct (format_json_repeated_names
              [ mkSink "s" (Some "old-noschema") "a" [];
                mkSink "s" (Some "new-noschema") "b" [] ]
              [ []; [] ] "-withschema" initial_world eq_refl)
    as (output & Hrun & Hnd & _ & Hlast).
  exists output. split; [exact Hrun|]. split; [exact Hnd|].
  exact (Hlast [(mkSink "s" (Some "old-noschema") "a" [], [])]
               (mkSink "s" (Some "new-noschema") "b" [], []) []
               eq_refl (fun x => x)).
Defined.

(** ** Strings *)

Lemma str_app_assoc (a b c : string) : (a ++ b) ++ c = a ++ (b ++ c).
Proof. induction a as [|x a IH]; simpl; [reflexivity | now rewrite IH]. Qed.

Lemma str_app_nil_r (a : string) : a ++ EmptyString = a.
Proof. induction a as [|x a IH]; simpl; [reflexivity | now rewrite IH]. Qed.

Lemma str_app_length (a b : string) :
  String.length (a ++ b) = String.length a + String.length b.
Proof. induction a as [|x a IH]; simpl; [reflexivity | now rewrite IH]. Qed.

Lemma drop_app (a b : string) : PyStr.drop (String.length a) (a ++ b) = b.
Proof. induction a as [|x a IH]; simpl; [now destruct b | exact IH]. Qed.

Lemma endswith_app (a b : string) : PyStr.endswith (a ++ b) b = true.
Proof.
  unfold PyStr.endswith. rewrite str_app_length.
  replace (String.length a + String.length b - String.length b)
    with (String.length a) by lia.
  rewrite drop_app, String.eqb_refl, andb_true_r.
  apply Nat.leb_le. lia.
Qed.

Lemma all_chars_app (p : ascii -> bool) (a b : string) :
  Pure.all_chars p (a ++ b) = Pure.all_chars p a && Pure.all_chars p b.
Proof.
  induction a as [|x a IH]; simpl; [reflexivity|].
  now rewrite IH, andb_assoc.
Qed.

(** Without an occurrence of [old] the string is returned as it is. *)
Lemma replace_absent (old new s : string) (x : ascii) (old' : string) :
  old = String x old' ->
  PyStr.contains old s = false -> PyStr.replace s old new = s.
Proof.
  intros ->. unfold PyStr.replace.
  induction s as [|a s IH]; [reflexivity|].
  cbn [PyStr.contains PyStr.replace_from]. intros H.
  apply orb_false_iff in H as [Hs Hc].
  rewrite Hs. now rewrite (IH Hc).
Qed.

Lemma replace_marker_suffix (base : string) :
  Pure.all_chars (Re.not_chr "-"%char) base = true ->
  PyStr.replace (base ++ "-noschema") "-noschema" EmptyString = base.
Proof.
  unfold PyStr.replace.
  induction base as [|a base IH]; [reflexivity|].
  cbn [Pure.all_chars]. intros H. apply andb_true_iff in H as [Ha Hb].
  cbn [append PyStr.replace_from PyStr.startswith].
  unfold Re.not_chr in Ha. apply negb_true_iff in Ha. rewrite Ha.
  cbn [andb]. now rewrite (IH Hb).
Qed.

(** X9.  The derived output topic always ends with the suffix; a topic
    in which [-noschema] does not occur only gets the suffix appended;
    and a topic [<base>-noschema] whose base has no hyphen becomes
    [<base><suffix>]. *)
Theorem output_topic_shape (t suffix : string) (w : World) :
  exists out,
    OutputFormatter.output_topic_of (Some t) suffix w = (inr (t, out), w)
    /\ PyStr.endswith out suffix = true
    /\ (PyStr.contains "-noschema" t = false -> out = t ++ suffix)
    /\ (forall base,
           Pure.all_chars (Re.not_chr "-"%char) base = true ->
           t = base ++ "-noschema" -> out = base ++ suffix).
Proof.
  eexists. split; [reflexivity|]. split; [apply endswith_app|]. split.
  - intros H. now rewrite (replace_absent _ _ _ _ _ eq_refl H).
  - intros base Hb ->. now rewrite replace_marker_suffix.
Qed.

Lemma output_topic_shape_witness :
  OutputFormatter.output_topic_of (Some "users_v2-noschema") "-withschema"
    initial_world
  = (inr ("users_v2-noschema", "users_v2-withschema"), initial_world)
  /\ OutputFormatter.output_topic_of (Some "plain") "-withschema"
       initial_world
     = (inr ("plain", "plain-withschema"), initial_world).
Proof.
  destruct (output_topic_shape "users_v2-noschema" "-withschema"
              initial_world) as (o1 & H1 & _ & _ & Hb).
  destruct (output_topic_shape "plain" "-withschema" initial_world)
    as (o2 & H2 & _ & Ha & _).
  rewrite H1, H2.
  rewrite (Hb "users_v2" eq_refl eq_refl), (Ha eq_refl).
  split; reflexivity.
Defined.

(** ** JSON text *)

Lemma json_induction (P : json -> Prop) :
  P JNull ->
  (forall b, P (JBool b)) ->
  (forall z, P (JInt z)) ->
  (forall s, P (JStr s)) ->
  (forall l, Forall P l -> P (JList l)) ->
  (forall d, Forall (fun kv => P (snd kv)) d -> P (JDict d)) ->
  forall v, P v.
Proof.
  intros Hn Hb Hz Hs Hl Hd. fix IH 1. intros [| b | z | s | l | d].
  - exact Hn.
  - apply Hb.
  - apply Hz.
  - apply Hs.
  - apply Hl. induction l as [|x l IHl]; constructor; [apply IH | exact IHl].
  - apply Hd. induction d as [|[k x] d IHd]; constructor;
      [apply IH | exact IHd].
Qed.

Lemma escape_char_printable (a : ascii) :
  Pure.all_chars Pure.printable (escape_char a) = true.
Proof. destruct a as [[] [] [] [] [] [] [] []]; reflexivity. Qed.

Lemma encode_str_printable (s : string) :
  Pure.all_chars Pure.printable (encode_str s) = true.
Proof.
  unfold encode_str. rewrite !all_chars_app.
  assert (H : Pure.all_chars Pure.printable (escape s) = true).
  { induction s as [|a s IH]; simpl; [reflexivity|].
    now rewrite all_chars_app, escape_char_printable, IH. }
  now rewrite H.
Qed.

Lemma of_Z_printable (z : Z) :
  Pure.all_chars Pure.printable (PyStr.of_Z z) = true.
Proof.
  unfold PyStr.of_Z.
  assert (Hu : forall d,
             Pure.all_chars Pure.printable (NilEmpty.string_of_uint d) = true).
  { induction d; simpl; try reflexivity; exact IHd. }
  assert (Hz : forall d,
             Pure.all_chars Pure.printable (NilZero.string_of_uint d) = true).
  { intros d. destruct d; try reflexivity; apply (Hu (_ d)). }
  destruct (Z.to_int z) as [d|d]; simpl; [apply Hz|].
  apply Hz.
Qed.

Lemma join_printable (sep : string) (parts : list string) :
  Pure.all_chars Pure.printable sep = true ->
  Forall (fun p => Pure.all_chars Pure.printable p = true) parts ->
  Pure.all_chars Pure.printable (PyStr.join sep parts) = true.
Proof.
  intros Hsep H. induction H as [|p parts Hp Hparts IH]; [reflexivity|].
  destruct parts as [|q parts]; [exact Hp|].
  change (PyStr.join sep (p :: q :: parts))
    with (p ++ sep ++ PyStr.join sep (q :: parts)).
  now rewrite !all_chars_app, Hp, Hsep, IH.
Qed.

(** X10.  The compact JSON text of any value consists of printable ASCII
    characters only (codes 32 to 126): every other character is escaped,
    so the text has no line break and fits the single line the properties
    format gives it. *)
Theorem dumps_compact_printable (v : json) :
  Pure.all_chars Pure.printable (dumps_compact v) = true.
Proof.
  induction v as [| b | z | s | l IH | d IH] using json_induction.
  - reflexivity.
  - now destruct b.
  - apply of_Z_printable.
  - apply encode_str_printable.
  - destruct l as [|x l]; [reflexivity|].
    change (dumps_compact (JList (x :: l)))
      with ("[" ++ PyStr.join "," (map dumps_compact (x :: l)) ++ "]").
    rewrite !all_chars_app, join_printable; [reflexivity | reflexivity |].
    apply Forall_map. exact IH.
  - destruct d as [|kx d]; [reflexivity|].
    change (dumps_compact (JDict (kx :: d)))
      with ("{" ++ PyStr.join ","
                     (map (fun '(k, x) =>
                             encode_str k ++ ": " ++ dumps_compact x)
                          (kx :: d)) ++ "}").
    rewrite !all_chars_app, join_printable; [reflexivity | reflexivity |].
    apply Forall_map. eapply Forall_impl; [|exact IH].
    intros [k x] Hx. cbn [snd] in Hx.
    now rewrite !all_chars_app, encode_str_printable, Hx.
Qed.

(** ** The matcher against its meaning *)

Lemma greedy_sound {R} (c : ascii -> bool) (min : nat)
      (k : string -> string -> option R) (s : string) :
  forall (taken : string) (r : R),
    Re.greedy c min k taken s = Some r ->
    exists x rest,
      s = x ++ rest /\ Pure.all_chars c x = true
      /\ (min <= String.length (taken ++ x))%nat
      /\ k (taken ++ x) rest = Some r.
Proof.
  induction s as [|a s IH]; intros taken r H; simpl in H.
  - destruct (Nat.leb_spec min (String.length taken)); [|discriminate].
    exists EmptyString, EmptyString. rewrite (str_app_nil_r taken). auto.
  - assert (Hstop :
      (if (min <=? String.length taken)%nat then k taken (String a s) else None)
      = Some r ->
      exists x rest,
        String a s = x ++ rest /\ Pure.all_chars c x = true
        /\ (min <= String.length (taken ++ x))%nat
        /\ k (taken ++ x) rest = Some r).
    { destruct (Nat.leb_spec min (String.length taken)); [|discriminate].
      intros Hk. exists EmptyString, (String a s).
      rewrite (str_app_nil_r taken). auto. }
    destruct (c a) eqn:Ha; [|auto].
    destruct (Re.greedy c min k (taken ++ String a EmptyString) s) eqn:E;
      [|auto].
    inversion H; subst.
    destruct (IH _ _ E) as (x & rest & -> & Hx & Hlen & Hk).
    rewrite str_app_assoc in Hlen, Hk. simpl in Hlen, Hk.
    exists (String a x), rest. simpl. rewrite Ha. auto.
Qed.

Lemma match_here_sound (p : Re.pattern) :
  forall (g : option string) (s : string) (r : option string),
    Re.match_here p g s = Some r ->
    exists m rest, s = m ++ rest /\ Pure.Matches p m g r.
Proof.
  induction p as [|[c|c min grp] p IH]; intros g s r H; simpl in H.
  - inversion H; subst. exists EmptyString, s. split; [reflexivity|constructor].
  - destruct s as [|a s]; [discriminate|].
    destruct (c a) eqn:Ha; [|discriminate].
    destruct (IH _ _ _ H) as (m & rest & -> & Hm).
    exists (String a m), rest. split; [reflexivity|]. now constructor.
  - apply greedy_sound in H as (x & rest & -> & Hx & Hlen & Hk).
    simpl in Hlen, Hk.
    destruct (IH _ _ _ Hk) as (m & rest' & -> & Hm).
    exists (x ++ m), rest'. split; [now rewrite str_app_assoc|].
    now constructor.
Qed.

Lemma search_sound (p : Re.pattern) (s : string) (r : option string) :
  Re.search p s = Some r ->
  exists pre m post, s = pre ++ m ++ post /\ Pure.Matches p m None r.
Proof.
  induction s as [|a s IH]; simpl; intros H.
  - destruct (Re.match_here p None EmptyString) eqn:E; [|discriminate].
    inversion H; subst.
    destruct (match_here_sound _ _ _ _ E) as (m & rest & Hs & Hm).
    exists EmptyString, m, rest. auto.
  - destruct (Re.match_here p None (String a s)) eqn:E.
    + inversion H; subst.
      destruct (match_here_sound _ _ _ _ E) as (m & rest & Hs & Hm).
      exists EmptyString, m, rest. auto.
    + destruct (IH H) as (pre & m & post & -> & Hm).
      exists (String a pre), m, post. auto.
Qed.

Lemma greedy_complete {R} (c : ascii -> bool) (min : nat)
      (k : string -> string -> option R) (x : string) :
  forall (taken rest : string),
    Pure.all_chars c x = true ->
    (min <= String.length (taken ++ x))%nat ->
    k (taken ++ x) rest <> None ->
    Re.greedy c min k taken (x ++ rest) <> None.
Proof.
  induction x as [|a x IH]; intros taken rest Hx Hlen Hk.
  - rewrite str_app_nil_r in Hlen, Hk. simpl.
    destruct rest as [|b rest]; simpl.
    + apply Nat.leb_le in Hlen. now rewrite Hlen.
    + apply Nat.leb_le in Hlen. rewrite Hlen.
      destruct (c b); [|exact Hk].
      now destruct (Re.greedy c min k (taken ++ String b EmptyString) rest).
  - simpl in Hx. apply andb_true_iff in Hx as [Ha Hx].
    simpl. rewrite Ha.
    assert (Hrec : Re.greedy c min k (taken ++ String a EmptyString)
                     (x ++ rest) <> None).
    { apply IH; [exact Hx | |]; rewrite str_app_assoc; assumption. }
    now destruct (Re.greedy c min k (taken ++ String a EmptyString)
                    (x ++ rest)).
Qed.

Lemma match_here_complete (p : Re.pattern) (m : string)
      (g r : option string) :
  Pure.Matches p m g r ->
  forall rest, Re.match_here p g (m ++ rest) <> None.
Proof.
  induction 1 as [g | c p a m g r Ha Hm IH | c min grp p x m g r Hx Hlen Hm IH];
    intros rest; simpl.
  - discriminate.
  - rewrite Ha. apply IH.
  - rewrite str_app_assoc. apply greedy_complete; [exact Hx | exact Hlen |].
    apply IH.
Qed.

Lemma search_here (p : Re.pattern) (s : string) :
  Re.match_here p None s <> None -> Re.search p s <> None.
Proof.
  intros H. destruct s; simpl;
    destruct (Re.match_here p None _); (discriminate || contradiction).
Qed.

Lemma search_complete (p : Re.pattern) (pre m post : string)
      (r : option string) :
  Pure.Matches p m None r -> Re.search p (pre ++ m ++ post) <> None.
Proof.
  intros Hm. induction pre as [|a pre IH].
  - apply search_here. apply (match_here_complete _ _ _ _ Hm).
  - simpl. destruct (Re.match_here p None (String a (pre ++ m ++ post)));
      [discriminate | exact IH].
Qed.

Ltac invert_matches :=
  repeat match goal with
         | H : Pure.Matches (_ :: _) _ _ _ |- _ => inversion H; clear H; subst
         | H : Pure.Matches [] _ _ _ |- _ => inversion H; clear H; subst
         end.

Ltac chars_eq :=
  repeat match goal with
         | H : Re.chr _ _ = true |- _ =>
             unfold Re.chr in H; apply Ascii.eqb_eq in H; subst
         | H : Re.is_ci _ _ = true |- _ =>
             unfold Re.is_ci in H; apply Ascii.eqb_eq in H
         end.

Lemma nonempty_length (c : ascii -> bool) (x : string) :
  (1 <= String.length x)%nat -> Pure.all_chars c x = true ->
  Pure.nonempty_of c x.
Proof.
  intros Hl Hc. split; [|exact Hc]. destruct x; simpl in Hl; [lia|discriminate].
Qed.

Lemma length_nonempty (c : ascii -> bool) (x : string) :
  Pure.nonempty_of c x -> (1 <= String.length x)%nat.
Proof.
  intros [Hne _]. destruct x; [contradiction | simpl; lia].
Qed.

Lemma matches_topic (m : string) (r : option string) :
  Pure.Matches MaterializeSchemaExtractor.topic_pattern m None r ->
  exists kw ws1 ws2 t,
    m = Pure.topic_clause kw ws1 ws2 t
    /\ PyStr.lower kw = "topic"
    /\ Pure.all_chars Re.space ws1 = true
    /\ Pure.all_chars Re.space ws2 = true
    /\ Pure.nonempty_of (Re.not_chr Re.squote) t
    /\ r = Some t.
Proof.
  unfold MaterializeSchemaExtractor.topic_pattern.
  cbn [Re.lit_ci app]. intros H. invert_matches. chars_eq.
  match goal with
  | |- context [String ?a1 (String ?a2 (String ?a3 (String ?a4 (String ?a5
                  (?w1 ++ String _ (?w2 ++ String _ (?t ++ _)))))))] =>
      exists (String a1 (String a2 (String a3 (String a4
                (String a5 EmptyString))))), w1, w2, t
  end.
  split; [reflexivity|]. split.
  - cbn [PyStr.lower].
    repeat match goal with H : PyStr.lower_char _ = _ |- _ => rewrite H; clear H end.
    reflexivity.
  - repeat split; try assumption; try (now apply nonempty_length).
    match goal with H : (1 <= String.length ?x)%nat |- ?x <> _ =>
      destruct x; simpl in H; [lia | discriminate] end.
Qed.

Lemma topic_matches (kw ws1 ws2 t : string) :
  PyStr.lower kw = "topic" ->
  Pure.all_chars Re.space ws1 = true ->
  Pure.all_chars Re.space ws2 = true ->
  Pure.nonempty_of (Re.not_chr Re.squote) t ->
  Pure.Matches MaterializeSchemaExtractor.topic_pattern
    (Pure.topic_clause kw ws1 ws2 t) None (Some t).
Proof.
  intros Hkw H1 H2 Ht.
  destruct kw as [|a1 [|a2 [|a3 [|a4 [|a5 [|a6 kw]]]]]]; try discriminate.
  cbn [PyStr.lower] in Hkw. inversion Hkw.
  unfold MaterializeSchemaExtractor.topic_pattern, Pure.topic_clause, Pure.sq.
  cbn [Re.lit_ci app append].
  repeat (apply Pure.MatchesOne;
          [unfold Re.is_ci; apply Ascii.eqb_eq; assumption|]).
  apply Pure.MatchesMany; [exact H1 | lia |].
  apply Pure.MatchesOne; [reflexivity|].
  apply Pure.MatchesMany; [exact H2 | lia |].
  apply Pure.MatchesOne; [reflexivity|].
  apply Pure.MatchesMany;
    [exact (proj2 Ht) | exact (length_nonempty _ _ Ht) |].
  apply Pure.MatchesOne; [reflexivity|]. constructor.
Qed.

Lemma matches_source (m : string) (r : option string) :
  Pure.Matches MaterializeSchemaExtractor.source_pattern m None r ->
  exists ws1 id ws2 ws3 db sch so,
    m = Pure.source_clause ws1 id ws2 ws3 db sch so
    /\ Pure.nonempty_of Re.space ws1
    /\ Pure.nonempty_of Re.not_space id
    /\ Pure.nonempty_of Re.space ws2
    /\ Pure.nonempty_of Re.space ws3
    /\ Pure.nonempty_of (Re.not_chr Re.dquote) db
    /\ Pure.nonempty_of (Re.not_chr Re.dquote) sch
    /\ Pure.nonempty_of (Re.not_chr Re.dquote) so
    /\ r = Some so.
Proof.
  unfold MaterializeSchemaExtractor.source_pattern.
  cbn [Re.lit app]. intros H. invert_matches. chars_eq.
  match goal with
  | |- context [(?w1 ++ String _ (?i ++ ?w2 ++ String _ (String _
                  (?w3 ++ String _ (?d ++ String _ (String _ (String _
                     (?s ++ String _ (String _ (String _ (?o ++ _)))))))))))] =>
      exists w1, i, w2, w3, d, s, o
  end.
  split; [reflexivity|].
  repeat split; try assumption;
    match goal with H : (1 <= String.length ?x)%nat |- ?x <> _ =>
      destruct x; simpl in H; [lia | discriminate] end.
Qed.

Lemma source_matches (ws1 id ws2 ws3 db sch so : string) :
  Pure.nonempty_of Re.space ws1 ->
  Pure.nonempty_of Re.not_space id ->
  Pure.nonempty_of Re.space ws2 ->
  Pure.nonempty_of Re.space ws3 ->
  Pure.nonempty_of (Re.not_chr Re.dquote) db ->
  Pure.nonempty_of (Re.not_chr Re.dquote) sch ->
  Pure.nonempty_of (Re.not_chr Re.dquote) so ->
  Pure.Matches MaterializeSchemaExtractor.source_pattern
    (Pure.source_clause ws1 id ws2 ws3 db sch so) None (Some so).
Proof.
  intros H1 Hid H2 H3 Hdb Hsch Hso.
  unfold MaterializeSchemaExtractor.source_pattern, Pure.source_clause,
    Pure.dq.
  cbn [Re.lit app append].
  repeat first
    [ apply Pure.MatchesOne; [reflexivity|]
    | apply Pure.MatchesMany;
        [ match goal with H : Pure.nonempty_of _ _ |- _ => exact (proj2 H) end
        | eapply length_nonempty; eassumption | ]
    | apply Pure.MatchesNil ].
Qed.

(** ** What [_parse_create_sink] returns *)

Lemma lower_length (s : string) :
  String.length (PyStr.lower s) = String.length s.
Proof. induction s as [|a s IH]; simpl; [reflexivity | now rewrite IH]. Qed.

(** X11.  A topic returned by [_parse_create_sink] is never empty, has
    no single quote in it, and stands in the statement between single
    quotes, after a five-character keyword and an equals sign with
    nothing but whitespace around the sign. *)
Theorem parsed_topic_is_quoted_clause (sql t : string)
  (H : fst (MaterializeSchemaExtractor._parse_create_sink sql) = Some t) :
  Pure.nonempty_of (Re.not_chr Re.squote) t
  /\ exists pre kw ws1 ws2 post,
       sql = pre ++ Pure.topic_clause kw ws1 ws2 t ++ post
       /\ String.length kw = 5
       /\ Pure.all_chars Re.space ws1 = true
       /\ Pure.all_chars Re.space ws2 = true.
Proof.
  unfold MaterializeSchemaExtractor._parse_create_sink in H. cbn [fst] in H.
  destruct (Re.search MaterializeSchemaExtractor.topic_pattern sql)
    as [g|] eqn:E; [|discriminate].
  simpl in H. subst g.
  destruct (search_sound _ _ _ E) as (pre & m & post & -> & Hm).
  destruct (matches_topic _ _ Hm)
    as (kw & ws1 & ws2 & t' & -> & Hkw & H1 & H2 & Ht & Heq).
  inversion Heq; subst t'. split; [exact Ht|].
  exists pre, kw, ws1, ws2, post.
  split; [reflexivity|]. split; [|split; assumption].
  rewrite <- (lower_length kw), Hkw. reflexivity.
Qed.

Lemma parsed_topic_is_quoted_clause_witness :
  Pure.nonempty_of (Re.not_chr Re.squote) "users-noschema"
  /\ exists pre kw ws1 ws2 post,
       Example.users_sql
       = pre ++ Pure.topic_clause kw ws1 ws2 "users-noschema" ++ post
       /\ String.length kw = 5
       /\ Pure.all_chars Re.space ws1 = true
       /\ Pure.all_chars Re.space ws2 = true.
Proof.
  apply (parsed_topic_is_quoted_clause Example.users_sql "users-noschema").
  vm_compute. reflexivity.
Defined.

(** X12.  A source object returned by [_parse_create_sink] is never
    empty, has no double quote in it, and is the third quoted name of a
    clause [FROM [id AS "db"."schema"."object"]] of the statement. *)
Theorem parsed_source_is_from_clause (sql so : string)
  (H : snd (MaterializeSchemaExtractor._parse_create_sink sql) = Some so) :
  Pure.nonempty_of (Re.not_chr Re.dquote) so
  /\ exists pre ws1 id ws2 ws3 db sch post,
       sql = pre ++ Pure.source_clause ws1 id ws2 ws3 db sch so ++ post
       /\ Pure.nonempty_of Re.space ws1
       /\ Pure.nonempty_of Re.not_space id
       /\ Pure.nonempty_of Re.space ws2
       /\ Pure.nonempty_of Re.space ws3
       /\ Pure.nonempty_of (Re.not_chr Re.dquote) db
       /\ Pure.nonempty_of (Re.not_chr Re.dquote) sch.
Proof.
  unfold MaterializeSchemaExtractor._parse_create_sink in H. cbn [snd] in H.
  destruct (Re.search MaterializeSchemaExtractor.source_pattern sql)
    as [g|] eqn:E; [|discriminate].
  simpl in H. subst g.
  destruct (search_sound _ _ _ E) as (pre & m & post & -> & Hm).
  destruct (matches_source _ _ Hm)
    as (ws1 & id & ws2 & ws3 & db & sch & so' & -> & H1 & Hid & H2 & H3
        & Hdb & Hsch & Hso & Heq).
  inversion Heq; subst so'. split; [exact Hso|].
  exists pre, ws1, id, ws2, ws3, db, sch, post.
  split; [reflexivity|]. repeat (split; [assumption|]). assumption.
Qed.

Lemma parsed_source_is_from_clause_witness :
  Pure.nonempty_of (Re.not_chr Re.dquote) "users_processed"
  /\ exists pre ws1 id ws2 ws3 db sch post,
       Example.users_sql
       = pre ++ Pure.source_clause ws1 id ws2 ws3 db sch "users_processed"
         ++ post
       /\ Pure.nonempty_of Re.space ws1
       /\ Pure.nonempty_of Re.not_space id
       /\ Pure.nonempty_of Re.space ws2
       /\ Pure.nonempty_of Re.space ws3
       /\ Pure.nonempty_of (Re.not_chr Re.dquote) db
       /\ Pure.nonempty_of (Re.not_chr Re.dquote) sch.
Proof.
  apply (parsed_source_is_from_clause Example.users_sql "users_processed").
  vm_compute. reflexivity.
Defined.

(** X13.  Conversely, a statement that contains a topic clause yields a
    topic, and one that contains a source clause yields a source object,
    wherever the clause stands and whatever surrounds it. *)
Theorem clauses_are_found (pre post : string) :
  (forall kw ws1 ws2 t,
      PyStr.lower kw = "topic" ->
      Pure.all_chars Re.space ws1 = true ->
      Pure.all_chars Re.space ws2 = true ->
      Pure.nonempty_of (Re.not_chr Re.squote) t ->
      fst (MaterializeSchemaExtractor._parse_create_sink
             (pre ++ Pure.topic_clause kw ws1 ws2 t ++ post)) <> None)
  /\ (forall ws1 id ws2 ws3 db sch so,
         Pure.nonempty_of Re.space ws1 ->
         Pure.nonempty_of Re.not_space id ->
         Pure.nonempty_of Re.space ws2 ->
         Pure.nonempty_of Re.space ws3 ->
         Pure.nonempty_of (Re.not_chr Re.dquote) db ->
         Pure.nonempty_of (Re.not_chr Re.dquote) sch ->
         Pure.nonempty_of (Re.not_chr Re.dquote) so ->
         snd (MaterializeSchemaExtractor._parse_create_sink
                (pre ++ Pure.source_clause ws1 id ws2 ws3 db sch so ++ post))
         <> None).
Proof.
  split.
  - intros kw ws1 ws2 t Hkw H1 H2 Ht.
    unfold MaterializeSchemaExtractor._parse_create_sink. cbn [fst].
    pose proof (search_complete _ pre _ post _
                  (topic_matches kw ws1 ws2 t Hkw H1 H2 Ht)) as Hs.
    destruct (Re.search MaterializeSchemaExtractor.topic_pattern _)
      as [g|] eqn:E; [|contradiction].
    destruct (search_sound _ _ _ E) as (pre' & m & post' & _ & Hm).
    destruct (matches_topic _ _ Hm) as (_ & _ & _ & t' & _ & _ & _ & _ & _ & ->).
    discriminate.
  - intros ws1 id ws2 ws3 db sch so H1 Hid H2 H3 Hdb Hsch Hso.
    unfold MaterializeSchemaExtractor._parse_create_sink. cbn [snd].
    pose proof (search_complete _ pre _ post _
                  (source_matches ws1 id ws2 ws3 db sch so
                     H1 Hid H2 H3 Hdb Hsch Hso)) as Hs.
    destruct (Re.search MaterializeSchemaExtractor.source_pattern _)
      as [g|] eqn:E; [|contradiction].
    destruct (search_sound _ _ _ E) as (pre' & m & post' & _ & Hm).
    destruct (matches_source _ _ Hm)
      as (_ & _ & _ & _ & _ & _ & so' & _ & _ & _ & _ & _ & _ & _ & _ & ->).
    discriminate.
Qed.

Lemma clauses_are_found_witness :
  snd (MaterializeSchemaExtractor._parse_create_sink
         ("CREATE SINK s "
          ++ Pure.source_clause " " "u1" " " " " "db" "public" "orders"
          ++ " INTO KAFKA CONNECTION k")) <> None.
Proof.
  apply (proj2 (clauses_are_found "CREATE SINK s " " INTO KAFKA CONNECTION k")).
  all: split; [discriminate | reflexivity].
Defined.

(** ** Schema Extractor: what a batch can contain *)

Lemma parsed_topic_chars (sql t : string) :
  fst (MaterializeSchemaExtractor._parse_create_sink sql) = Some t ->
  Pure.nonempty_of (Re.not_chr Re.squote) t.
Proof.
  unfold MaterializeSchemaExtractor._parse_create_sink. cbn [fst].
  destruct (Re.search MaterializeSchemaExtractor.topic_pattern sql)
    as [g|] eqn:E; [|discriminate].
  simpl. intros ->.
  destruct (search_sound _ _ _ E) as (pre & m & post & _ & Hm).
  destruct (matches_topic _ _ Hm) as (_ & _ & _ & t' & _ & _ & _ & _ & Ht & Heq).
  now inversion Heq; subst.
Qed.

Lemma parsed_source_chars (sql so : string) :
  snd (MaterializeSchemaExtractor._parse_create_sink sql) = Some so ->
  Pure.nonempty_of (Re.not_chr Re.dquote) so.
Proof.
  unfold MaterializeSchemaExtractor._parse_create_sink. cbn [snd].
  destruct (Re.search MaterializeSchemaExtractor.source_pattern sql)
    as [g|] eqn:E; [|discriminate].
  simpl. intros ->.
  destruct (search_sound _ _ _ E) as (pre & m & post & _ & Hm).
  destruct (matches_source _ _ Hm)
    as (_ & _ & _ & _ & _ & _ & so' & _ & _ & _ & _ & _ & _ & _ & Hso & Heq).
  now inversion Heq; subst.
Qed.

Lemma select_sinks_In (cat : Catalog) (names : option (list string))
      (row : SinkRow) :
  In row (Sql.select_sinks cat names) ->
  In row (mz_sinks cat) /\ sr_type row = "kafka"
  /\ (forall ns, names = Some ns -> In (sr_name row) ns).
Proof.
  unfold Sql.select_sinks. rewrite filter_In. intros [Hin Hb].
  apply andb_true_iff in Hb as [Ht Hn]. apply String.eqb_eq in Ht.
  repeat split; [exact Hin | exact Ht |].
  intros ns ->. apply existsb_exists in Hn as (n & Hn & Heq).
  apply String.eqb_eq in Heq. now subst.
Qed.

Lemma sink_of_row_In (cat : Catalog) (row : SinkRow) (s : Sink) :
  In s (Spec.sink_of_row cat row) ->
  s = mkSink (sr_name row) (Spec.parsed_topic row) (source_object s)
        (Spec.columns_of cat (source_object s))
  /\ Spec.parsed_source row = Some (source_object s)
  /\ columns s <> [].
Proof.
  unfold Spec.sink_of_row.
  destruct (Spec.parsed_source row) as [so|]; [|contradiction].
  destruct (Spec.columns_of cat so) as [|c cols] eqn:E; [contradiction|].
  intros [<-|[]]. cbn [source_object columns]. rewrite E.
  repeat split. discriminate.
Qed.

Lemma flat_map_length_le {A B} (f : A -> list B) (l : list A) :
  (forall a, List.length (f a) <= 1) ->
  List.length (flat_map f l) <= List.length l.
Proof.
  intros H. induction l as [|a l IH]; simpl; [lia|].
  rewrite length_app. specialize (H a). lia.
Qed.

(** X14.  Every sink [get_sinks] returns comes from a catalog row of
    type [kafka] with the same name (and from the filter, when a
    non-empty one is given); its source object is a non-empty string
    without double quote, its columns are not empty and ascend by
    position, and its topic, when there is one, is a non-empty string
    without single quote.  There are at most as many sinks as rows. *)
Theorem get_sinks_result_invariant (net : Network)
        (self : MaterializeSchemaExtractor.t) (names : option (list string))
        (cat : Catalog) (w : World)
        (Hnet : net (MaterializeSchemaExtractor.connection_params self)
                = inr cat) :
  exists sinks w',
    MaterializeSchemaExtractor.get_sinks net self names w = (inr sinks, w')
    /\ List.length sinks
       <= List.length
            (Sql.select_sinks cat
               (MaterializeSchemaExtractor.name_filter names))
    /\ Forall
         (fun s =>
            (exists row, In row (mz_sinks cat) /\ sr_type row = "kafka"
                         /\ sr_name row = sink_name s)
            /\ (forall n ns, names = Some (n :: ns) ->
                             In (sink_name s) (n :: ns))
            /\ Pure.nonempty_of (Re.not_chr Re.dquote) (source_object s)
            /\ columns s <> []
            /\ Spec.sorted_by_position (columns s)
            /\ (forall t, topic s = Some t ->
                          Pure.nonempty_of (Re.not_chr Re.squote) t))
         sinks.
Proof.
  pose proof (get_sinks_run net self names cat w Hnet) as Hrun.
  cbv zeta in Hrun. do 2 eexists. split; [exact Hrun|]. split.
  - apply flat_map_length_le. intros row. unfold Spec.sink_of_row.
    destruct (Spec.parsed_source row); [|simpl; lia].
    destruct (Spec.columns_of cat s); simpl; lia.
  - apply Forall_forall. intros s Hs.
    apply in_flat_map in Hs as (row & Hrow & Hs).
    apply select_sinks_In in Hrow as (Hin & Htype & Hfilter).
    apply sink_of_row_In in Hs as (Heq & Hsrc & Hcols).
    assert (Hsnd : snd (MaterializeSchemaExtractor._parse_create_sink
                          (sr_create_sql row)) = Some (source_object s)).
    { unfold Spec.parsed_source in Hsrc.
      destruct (snd _) as [so|]; [|discriminate].
      destruct (PyStr.truthy so); [exact Hsrc | discriminate]. }
    repeat split.
    + exists row. rewrite Heq. auto.
    + intros n ns ->. rewrite Heq. cbn [sink_name]. now apply Hfilter.
    + exact (proj1 (parsed_source_chars _ _ Hsnd)).
    + exact (proj2 (parsed_source_chars _ _ Hsnd)).
    + exact Hcols.
    + rewrite Heq. cbn [columns]. apply columns_of_sorted.
    + rewrite Heq in H. cbn [topic] in H.
      exact (proj1 (parsed_topic_chars _ _ H)).
    + rewrite Heq in H. cbn [topic] in H.
      exact (proj2 (parsed_topic_chars _ _ H)).
Qed.

Lemma get_sinks_result_invariant_witness :
  exists sinks w',
    MaterializeSchemaExtractor.get_sinks (network Example.env)
      Example.extractor (Some ["users_sink"; "ghost_sink"]) initial_world
    = (inr sinks, w')
    /\ List.length sinks <= 2
    /\ Forall (fun s => In (sink_name s) ["users_sink"; "ghost_sink"]
                        /\ columns s <> []) sinks.
Proof.
  destruct (get_sinks_result_invariant (network Example.env)
              Example.extractor (Some ["users_sink"; "ghost_sink"])
              Example.catalog initial_world eq_refl)
    as (sinks & w' & Hrun & Hlen & Hall).
  exists sinks, w'. split; [exact Hrun|]. split; [exact Hlen|].
  eapply Forall_impl; [|exact Hall].
  intros s (_ & Hf & _ & Hc & _). split; [|exact Hc].
  exact (Hf _ _ eq_refl).
Defined.


(** ** The run: failures and outputs *)

Lemma get_sinks_fails (net : Network) (self : MaterializeSchemaExtractor.t)
      (names : option (list string)) (msg : string) (w : World) :
  net (MaterializeSchemaExtractor.connection_params self) = inl msg ->
  MaterializeSchemaExtractor.get_sinks net self names w
  = (inl (OperationalError msg),
     Spec.add_log w
       [mkLog ERROR ("Failed to connect to Materialize: " ++ msg)]).
Proof.
  intros Hnet.
  unfold MaterializeSchemaExtractor.get_sinks,
    MaterializeSchemaExtractor.connect, Psycopg2.connect, try_except, bind.
  rewrite Hnet. reflexivity.
Qed.

Lemma schemas_loop_pure (generator : SchemaGenerator.t) (sinks : list Sink) :
  forall (schemas : list (Dict.t json)) (w : World),
    schemas_loop generator sinks schemas w
    = (inr (schemas
            ++ map (Pure.schema_of (SchemaGenerator.schema_namespace generator))
                 sinks)%list,
       Spec.add_log w (flat_map Pure.sink_records sinks)).
Proof.
  induction sinks as [|sink sinks IH]; intros schemas w.
  - simpl. now rewrite app_nil_r, add_log_nil.
  - cbn [schemas_loop flat_map map]. unfold bind.
    rewrite logger_run, generate_schema_pure, IH, !add_log_app.
    now rewrite <- app_assoc.
Qed.

(** X16.  When the server cannot be reached, [get_sinks] logs the
    failure and raises the error again without having opened a
    connection; the run then logs the error a second time, prints a
    traceback only in verbose mode, writes no output and exits with 1. *)
Theorem connection_failure (env : Env) (host : string) (port : Z)
        (user : string) (password : option string) (database : string)
        (args : Args) (msg : string) (w : World)
        (Hnet : network env
                  (MaterializeSchemaExtractor.connection_params
                     (MaterializeSchemaExtractor.init host port user password
                        database)) = inl msg) :
  MaterializeSchemaExtractor.get_sinks (network env)
    (MaterializeSchemaExtractor.init host port user password database)
    (arg_sinks args) w
  = (inl (OperationalError msg),
     mkWorld
       (log w ++ [mkLog ERROR ("Failed to connect to Materialize: " ++ msg)])
       (conns w) (stdout w) (stderr w) (files w))
  /\ main env host port user password database args w
     = (inr 1%Z,
        mkWorld
          (log w
           ++ [ mkLog INFO ("Connecting to Materialize at " ++ host ++ ":"
                            ++ PyStr.of_Z port ++ "...");
                mkLog INFO "Querying Kafka sinks...";
                mkLog ERROR ("Failed to connect to Materialize: " ++ msg);
                mkLog ERROR ("Error: " ++ msg) ])
          (conns w) (stdout w)
          (stderr w ++ (if arg_verbose args
                        then ["Traceback (most recent call last):"]
                        else []))
          (files w)).
Proof.
  split; [now apply get_sinks_fails|].
  unfold main, try_except, bind. rewrite !logger_run.
  rewrite (get_sinks_fails _ _ _ msg _ Hnet). rewrite logger_run.
  unfold Spec.add_log; cbn [log conns stdout stderr files exn_str].
  rewrite <- !app_assoc. cbn [app].
  destruct (arg_verbose args); unfold print_stderr, ret;
    cbn [log conns stdout stderr files]; [reflexivity|].
  now rewrite app_nil_r.
Qed.

Lemma connection_failure_witness :
  main (mkEnv (fun _ => inl "connection refused") (fun _ => true))
    "localhost" 6875 "materialize" None "materialize" (Example.args None)
    initial_world
  = (inr 1%Z,
     mkWorld
       [ mkLog INFO "Connecting to Materialize at localhost:6875...";
         mkLog INFO "Querying Kafka sinks...";
         mkLog ERROR "Failed to connect to Materialize: connection refused";
         mkLog ERROR "Error: connection refused" ]
       [] [] [] []).
Proof.
  exact (proj2 (connection_failure
                  (mkEnv (fun _ => inl "connection refused") (fun _ => true))
                  "localhost" 6875 "materialize" None "materialize"
                  (Example.args None) "connection refused" initial_world
                  eq_refl)).
Defined.



Lemma formatter_of_pure (f : Format) (sinks : list Sink)
      (schemas : list (Dict.t json)) (suffix : option string) (w : World) :
  Pure.all_topics (combine sinks schemas) = true ->
  exists text,
    forall w0, Pure.formatter_of f sinks schemas suffix w0 = (inr text, w0).
Proof.
  intros H. destruct f; eexists; intros w0; cbn [Pure.formatter_of];
    rewrite ?format_properties_pure, ?format_json_pure, H; reflexivity.
Qed.

Lemma all_topics_combine (sinks : list Sink) (schemas : list (Dict.t json)) :
  Forall (fun s => topic s <> None) sinks ->
  Pure.all_topics (combine sinks schemas) = true.
Proof.
  intros H. revert schemas.
  induction H as [|s sinks Hs H IH]; intros [|x schemas]; try reflexivity.
  cbn [combine Pure.all_topics forallb fst].
  destruct (topic s); [|contradiction]. apply IH.
Qed.


Lemma sample_users_batch (w0 : World) :
  exists w1,
    MaterializeSchemaExtractor.get_sinks (network Example.env)
      (MaterializeSchemaExtractor.init "localhost" 6875 "materialize" None
         "materialize") (Some ["users_sink"]) w0
    = (inr [Example.users_sink], w1).
Proof.
  eexists.
  rewrite (get_sinks_run (network Example.env) _ (Some ["users_sink"])
             Example.catalog w0 eq_refl).
  reflexivity.
Qed.


(** X19.  When the output path cannot be opened for writing, the run
    exits with 1 although sinks and schemas were produced: the error is
    logged, nothing is printed and no file is written. *)
Theorem main_unwritable_output (env : Env) (host : string) (port : Z)
        (user : string) (password : option string) (database : string)
        (args : Args) (cat : Catalog) (w : World) (s : Sink)
        (sinks : list Sink) (a : ascii) (p : string)
        (Hnet : network env
                  (MaterializeSchemaExtractor.connection_params
                     (MaterializeSchemaExtractor.init host port user password
                        database)) = inr cat)
        (Hget : forall w0, exists w1,
            MaterializeSchemaExtractor.get_sinks (network env)
              (MaterializeSchemaExtractor.init host port user password
                 database) (arg_sinks args) w0 = (inr (s :: sinks), w1))
        (Htopics : Forall (fun x => topic x <> None) (s :: sinks))
        (Hout : arg_output args = Some (String a p))
        (Hwritable : writable env (String a p) = false) :
  exists w' m l,
    main env host port user password database args w = (inr 1%Z, w')
    /\ log w' = (l ++ [mkLog ERROR ("Error: " ++ m)])%list
    /\ stdout w' = stdout w /\ files w' = files w.
Proof.
  set (gen := SchemaGenerator.init (Some (arg_schema_namespace args))).
  set (schemas := map (Pure.schema_of (SchemaGenerator.schema_namespace gen))
                      (s :: sinks)).
  destruct (formatter_of_pure (arg_format args) (s :: sinks) schemas
              (Some (arg_output_suffix args)) w
              (all_topics_combine _ _ Htopics)) as [text Htext].
  assert (Hsinks :
            flat_map (Spec.sink_of_row cat)
              (Sql.select_sinks cat
                 (MaterializeSchemaExtractor.name_filter (arg_sinks args)))
            = s :: sinks).
  { destruct (Hget w) as [w1 Hw1].
    pose proof (get_sinks_run _ _ (arg_sinks args) cat w Hnet) as Hrun.
    cbv zeta in Hrun. rewrite Hrun in Hw1. now inversion Hw1. }
  unfold main, try_except, bind. rewrite !logger_run.
  match goal with
  | |- context [MaterializeSchemaExtractor.get_sinks _ _ _ ?w0] =>
      pose proof (get_sinks_run _ _ (arg_sinks args) cat w0 Hnet) as Hrun
  end.
  cbv zeta in Hrun. rewrite Hrun, Hsinks. clear Hrun.
  rewrite logger_run, schemas_loop_pure. fold gen.
  cbn [app]. fold schemas.
  assert (Hfmt : forall w0,
             (match arg_format args with
              | Properties =>
                  OutputFormatter.format_properties (s :: sinks) schemas
                    (Some (arg_output_suffix args))
              | JsonFormat =>
                  OutputFormatter.format_json (s :: sinks) schemas
                    (Some (arg_output_suffix args))
              end) w0 = (inr text, w0)).
  { intros w0. specialize (Htext w0). now destruct (arg_format args). }
  rewrite Hfmt, Hout. unfold write_file. rewrite Hwritable.
  unfold raise. rewrite logger_run.
  destruct (arg_verbose args); do 3 eexists;
    (split; [reflexivity|]);
    (split; [unfold Spec.add_log; cbn [log]; reflexivity|]);
    split; reflexivity.
Qed.

Lemma main_unwritable_output_witness :
  exists w' m l,
    main (mkEnv (fun _ => inr Example.catalog) (fun _ => false))
      "localhost" 6875 "materialize" None "materialize" Pure.json_to_file
      initial_world = (inr 1%Z, w')
    /\ log w' = (l ++ [mkLog ERROR ("Error: " ++ m)])%list
    /\ stdout w' = [] /\ files w' = [].
Proof.
  refine (main_unwritable_output
            (mkEnv (fun _ => inr Example.catalog) (fun _ => false))
            "localhost" 6875 "materialize" None "materialize"
            Pure.json_to_file Example.catalog initial_world
            Example.users_sink [] "s"%char "chemas.json"
            eq_refl sample_users_batch _ eq_refl eq_refl).
  repeat constructor. discriminate.
Defined.

Lemma all_topics_map_false (f : Sink -> Dict.t json) (sinks : list Sink) :
  Exists (fun x => topic x = None) sinks ->
  Pure.all_topics (combine sinks (map f sinks)) = false.
Proof.
  induction 1 as [s sinks Hs | s sinks _ IH];
    cbn [map combine Pure.all_topics forallb fst].
  - now rewrite Hs.
  - fold (Pure.all_topics (combine sinks (map f sinks))). rewrite IH.
    apply andb_false_r.
Qed.

(** X20.  One sink without topic in the batch makes the whole run fail:
    whatever the format and however many complete sinks there are, the
    formatter's [AttributeError] is logged as the last record, nothing is
    printed or written, and the exit code is 1. *)
Theorem main_aborts_on_missing_topic (env : Env) (host : string) (port : Z)
        (user : string) (password : option string) (database : string)
        (args : Args) (cat : Catalog) (w : World) (s : Sink)
        (sinks : list Sink)
        (Hnet : network env
                  (MaterializeSchemaExtractor.connection_params
                     (MaterializeSchemaExtractor.init host port user password
                        database)) = inr cat)
        (Hget : forall w0, exists w1,
            MaterializeSchemaExtractor.get_sinks (network env)
              (MaterializeSchemaExtractor.init host port user password
                 database) (arg_sinks args) w0 = (inr (s :: sinks), w1))
        (Hmissing : Exists (fun x => topic x = None) (s :: sinks)) :
  exists w' l,
    main env host port user password database args w = (inr 1%Z, w')
    /\ log w'
       = (l ++ [mkLog ERROR
                  "Error: 'NoneType' object has no attribute 'replace'"])%list
    /\ stdout w' = stdout w /\ files w' = files w.
Proof.
  set (gen := SchemaGenerator.init (Some (arg_schema_namespace args))).
  assert (Hsinks :
            flat_map (Spec.sink_of_row cat)
              (Sql.select_sinks cat
                 (MaterializeSchemaExtractor.name_filter (arg_sinks args)))
            = s :: sinks).
  { destruct (Hget w) as [w1 Hw1].
    pose proof (get_sinks_run _ _ (arg_sinks args) cat w Hnet) as Hrun.
    cbv zeta in Hrun. rewrite Hrun in Hw1. now inversion Hw1. }
  pose proof (all_topics_map_false
                (Pure.schema_of (SchemaGenerator.schema_namespace gen))
                _ Hmissing) as Hall.
  unfold main, try_except, bind. rewrite !logger_run.
  match goal with
  | |- context [MaterializeSchemaExtractor.get_sinks _ _ _ ?w0] =>
      pose proof (get_sinks_run _ _ (arg_sinks args) cat w0 Hnet) as Hrun
  end.
  cbv zeta in Hrun. rewrite Hrun, Hsinks. clear Hrun.
  rewrite logger_run, schemas_loop_pure. fold gen. cbn [app].
  assert (Hfmt : forall w0,
             (match arg_format args with
              | Properties =>
                  OutputFormatter.format_properties (s :: sinks)
                    (map (Pure.schema_of
                            (SchemaGenerator.schema_namespace gen))
                       (s :: sinks))
                    (Some (arg_output_suffix args))
              | JsonFormat =>
                  OutputFormatter.format_json (s :: sinks)
                    (map (Pure.schema_of
                            (SchemaGenerator.schema_namespace gen))
                       (s :: sinks))
                    (Some (arg_output_suffix args))
              end) w0 = (inl Pure.missing_topic, w0)).
  { intros w0. destruct (arg_format args);
      rewrite ?format_properties_pure, ?format_json_pure, Hall; reflexivity. }
  rewrite Hfmt. rewrite logger_run.
  destruct (arg_verbose args); do 2 eexists;
    (split; [reflexivity|]);
    (split; [unfold Spec.add_log; cbn [log]; reflexivity|]);
    split; reflexivity.
Qed.

Lemma sample_full_batch (w0 : World) :
  exists w1,
    MaterializeSchemaExtractor.get_sinks (network Example.env)
      (MaterializeSchemaExtractor.init "localhost" 6875 "materialize" None
         "materialize") None w0
    = (inr [Example.users_sink; Example.orders_sink], w1).
Proof.
  eexists.
  rewrite (get_sinks_run (network Example.env) _ None Example.catalog w0
             eq_refl).
  reflexivity.
Qed.

Lemma main_aborts_on_missing_topic_witness :
  exists w' l,
    main Example.env "localhost" 6875 "materialize" None "materialize"
      (Example.args None) initial_world = (inr 1%Z, w')
    /\ log w'
       = (l ++ [mkLog ERROR
                  "Error: 'NoneType' object has no attribute 'replace'"])%list
    /\ stdout w' = [] /\ files w' = [].
Proof.
  refine (main_aborts_on_missing_topic Example.env "localhost" 6875
            "materialize" None "materialize" (Example.args None)
            Example.catalog initial_world Example.users_sink
            [Example.orders_sink] eq_refl sample_full_batch _).
  apply Exists_cons_tl. apply Exists_cons_hd. reflexivity.
Defined.




(** ** A server that fails a statement *)

Lemma unreliable_execute_run {R} (cat : Catalog) (srv : Server)
      (cs : list ConnStatus) (q : Statement) (rows : Catalog -> list R)
      (st : ConnStatus) (lg : list LogRecord) (out err : list string)
      (fs : Dict.t string) :
  Unreliable.execute_fetchall
    (Unreliable.mkCursor (mkConn (List.length cs) cat) srv) q rows
    (mkWorld lg (cs ++ [st]) out err fs)
  = (match failure srv q with
     | Some msg => inl (DatabaseError msg)
     | None => inr (rows (catalog_of srv))
     end, mkWorld lg (cs ++ [ConnBegin]) out err fs).
Proof.
  unfold Unreliable.execute_fetchall, Psycopg2.set_status, bind, get_conns,
    set_conns; simpl.
  rewrite set_nth_last. now destruct (failure srv q).
Qed.

(** With a server that never fails, the code behaves as on the catalog
    alone. *)
Lemma unreliable_get_columns_agrees (c : connection) (name : string)
      (w : World) :
  Unreliable._get_columns (Unreliable.mkCursor c (reliable (conn_db c))) name w
  = MaterializeSchemaExtractor._get_columns c name w.
Proof. reflexivity. Qed.

Lemma unreliable_sinks_loop_agrees (c : connection) (rows : list SinkRow) :
  forall (sinks : list Sink) (w : World),
    Unreliable.sinks_loop (Unreliable.mkCursor c (reliable (conn_db c)))
      rows sinks w
    = MaterializeSchemaExtractor.sinks_loop c rows sinks w.
Proof.
  induction rows as [|row rows IH]; intros sinks w; [reflexivity|].
  cbn [Unreliable.sinks_loop MaterializeSchemaExtractor.sinks_loop].
  destruct (MaterializeSchemaExtractor._parse_create_sink (sr_create_sql row))
    as [tp [so|]].
  - destruct (PyStr.truthy so).
    + unfold bind at 1 3. rewrite unreliable_get_columns_agrees.
      destruct (MaterializeSchemaExtractor._get_columns c so w)
        as [[e|[|col cols]] w1]; [reflexivity | | apply IH].
      unfold bind. destruct (logger _ _ w1) as [[e|u] w2];
        [reflexivity | apply IH].
    + unfold bind. destruct (logger _ _ w) as [[e|u] w2];
        [reflexivity | apply IH].
  - unfold bind. destruct (logger _ _ w) as [[e|u] w2];
      [reflexivity | apply IH].
Qed.

Lemma bind_ext {A B} (m : M A) (f g : A -> M B) (w : World) :
  (forall a w', f a w' = g a w') -> bind m f w = bind m g w.
Proof.
  intros H. unfold bind. destruct (m w) as [[e|a] w']; [reflexivity | apply H].
Qed.

Lemma with_connection_ext {A} (c : connection) (f g : connection -> M A)
      (w : World) :
  f c w = g c w ->
  Psycopg2.with_connection c f w = Psycopg2.with_connection c g w.
Proof. intros H. unfold Psycopg2.with_connection. now rewrite H. Qed.

Lemma held_by_frame_ext {A} (c : connection) (f g : M A) (w : World) :
  f w = g w -> Psycopg2.held_by_frame c f w = Psycopg2.held_by_frame c g w.
Proof. intros H. unfold Psycopg2.held_by_frame. now rewrite H. Qed.

Lemma connect_run (net : Network) (self : MaterializeSchemaExtractor.t)
      (w : World) :
  MaterializeSchemaExtractor.connect net self w
  = match net (MaterializeSchemaExtractor.connection_params self) with
    | inl msg =>
        (inl (OperationalError msg),
         Spec.add_log w
           [mkLog ERROR ("Failed to connect to Materialize: " ++ msg)])
    | inr cat =>
        (inr (mkConn (List.length (conns w)) cat),
         mkWorld (log w) (conns w ++ [ConnReady]) (stdout w) (stderr w)
                 (files w))
    end.
Proof.
  unfold MaterializeSchemaExtractor.connect, Psycopg2.connect, try_except.
  destruct (net _); reflexivity.
Qed.

Lemma unreliable_connect_run (net : Unreliable.Network)
      (self : MaterializeSchemaExtractor.t) (w : World) :
  Unreliable.connect net self w
  = match net (MaterializeSchemaExtractor.connection_params self) with
    | inl msg =>
        (inl (OperationalError msg),
         Spec.add_log w
           [mkLog ERROR ("Failed to connect to Materialize: " ++ msg)])
    | inr srv =>
        (inr (Unreliable.mkCursor
                (mkConn (List.length (conns w)) (catalog_of srv)) srv),
         mkWorld (log w) (conns w ++ [ConnReady]) (stdout w) (stderr w)
                 (files w))
    end.
Proof.
  unfold Unreliable.connect, Unreliable.psycopg2_connect, try_except.
  destruct (net _); reflexivity.
Qed.

Lemma unreliable_get_sinks_agrees (net : Network)
      (self : MaterializeSchemaExtractor.t) (names : option (list string))
      (w : World) :
  Unreliable.get_sinks (Unreliable.of_reliable net) self names w
  = MaterializeSchemaExtractor.get_sinks net self names w.
Proof.
  unfold Unreliable.get_sinks, MaterializeSchemaExtractor.get_sinks.
  match goal with
  | |- bind ?m1 ?k1 w = bind ?m2 ?k2 w =>
      change (match m1 w with
              | (inr a, w') => k1 a w'
              | (inl e, w') => (inl e, w')
              end
              = match m2 w with
                | (inr a, w') => k2 a w'
                | (inl e, w') => (inl e, w')
                end)
  end.
  rewrite unreliable_connect_run, connect_run.
  unfold Unreliable.of_reliable.
  destruct (net (MaterializeSchemaExtractor.connection_params self))
    as [msg|cat]; [reflexivity|].
  cbn [Unreliable.cur_conn catalog_of reliable].
  apply held_by_frame_ext, with_connection_ext.
  apply (bind_ext
           (Psycopg2.execute_fetchall (mkConn (List.length (conns w)) cat)
              (fun cat0 =>
                 Sql.select_sinks cat0
                   (MaterializeSchemaExtractor.name_filter names)))).
  intros [|row rows] w'; [reflexivity|].
  apply (unreliable_sinks_loop_agrees (mkConn (List.length (conns w)) cat)).
Qed.



(** C9, as the code behaves.  When the server fails the sink query, the
    error leaves [get_sinks] with the connection of the call still open:
    the [with] block has only rolled the transaction back, nothing has
    closed the connection, and the frame that holds it is kept by the
    exception. *)
Theorem failed_statement_leaves_connection_open (net : Unreliable.Network)
        (self : MaterializeSchemaExtractor.t) (names : option (list string))
        (srv : Server) (msg : string) (w : World)
        (Hnet : net (MaterializeSchemaExtractor.connection_params self)
                = inr srv)
        (Hfail : failure srv
                   (SelectSinks (MaterializeSchemaExtractor.name_filter names))
                 = Some msg) :
  exists w',
    Unreliable.get_sinks net self names w = (inl (DatabaseError msg), w')
    /\ conns w' = (conns w ++ [ConnReady])%list
    /\ nth_error (conns w') (List.length (conns w)) = Some ConnReady
    /\ log w' = log w.
Proof.
  destruct w as [lg cs out err fs].
  unfold Unreliable.get_sinks.
  match goal with
  | |- exists w', bind ?m ?k ?w0 = _ /\ _ =>
      change (bind m k w0)
        with (match m w0 with
              | (inr a, w1) => k a w1
              | (inl e, w1) => (inl e, w1)
              end)
  end.
  rewrite unreliable_connect_run, Hnet.
  cbn [Unreliable.cur_conn conns log stdout stderr files].
  unfold Psycopg2.held_by_frame, Psycopg2.with_connection.
  unfold bind at 1. rewrite unreliable_execute_run, Hfail.
  unfold bind, raise, Psycopg2.rollback, Psycopg2.set_status, bind,
    get_conns, set_conns.
  cbn [conns log stdout stderr files conn_id]. rewrite set_nth_last.
  eexists. split; [reflexivity|]. cbn [conns log].
  split; [reflexivity|]. split; [|reflexivity].
  rewrite nth_error_app2, Nat.sub_diag by lia. reflexivity.
Qed.

Lemma failed_statement_leaves_connection_open_witness :
  exists w',
    Unreliable.get_sinks Unreliable.sinks_query_fails Example.extractor None
      initial_world
    = (inl (DatabaseError "relation does not exist"), w')
    /\ conns w' = [ConnReady]
    /\ nth_error (conns w') 0 = Some ConnReady
    /\ log w' = [].
Proof.
  exact (failed_statement_leaves_connection_open Unreliable.sinks_query_fails
           Example.extractor None
           (mkServer Example.catalog
              (fun q => match q with
                        | SelectSinks _ => Some "relation does not exist"
                        | _ => None
                        end))
           "relation does not exist" initial_world eq_refl eq_refl).
Defined.

(** On the path without error the frame is dropped at the return, and the
    connection with it. *)
Lemma get_sinks_closes_on_return (net : Network)
      (self : MaterializeSchemaExtractor.t) (names : option (list string))
      (cat : Catalog) (w : World) :
  net (MaterializeSchemaExtractor.connection_params self) = inr cat ->
  exists sinks w',
    MaterializeSchemaExtractor.get_sinks net self names w = (inr sinks, w')
    /\ conns w' = (conns w ++ [ConnClosed])%list.
Proof.
  intros Hnet. pose proof (get_sinks_run net self names cat w Hnet) as Hrun.
  cbv zeta in Hrun. do 2 eexists. split; [exact Hrun | reflexivity].
Qed.

